(** * Pybricks line tracer: PID regulator, curve detector, line search and
      control loop

    Shallow embedding of [Perfect_Program.py] (class [LineTracer]) and of the
    corresponding functions of [Level4_Program.py].

    Numbers.  The Python code computes with integers (sensor reflectances,
    counters) and floats (gains, thresholds, turn rates).  Both are modelled
    by exact rationals [Q]: every statement below is about the arithmetic the
    program text denotes, without rounding.  Equality of computed numbers is
    therefore [==] ([Qeq]), comparisons are [<] and [<=] on [Q].

    Devices.  [color_sensor.reflection()] and [hub.buttons.pressed()] are
    inputs; they are passed to the functions that read them.  The commands
    sent to the drive base ([robot.drive], [robot.turn], [robot.stop]) and the
    sensor reads are recorded, in program order, in a log of events.  Printing,
    the hub display, the speaker and [wait] have no influence on the control
    state and are left out. *)

From Stdlib Require Import QArith Qabs Qminmax Lqa List Lia ZArith Bool.
Import ListNotations.

Open Scope Q_scope.

(** ** Python comparison operators on numbers *)

Definition Qltb (x y : Q) : bool := negb (Qle_bool y x).

Notation "x <? y" := (Qltb x y) (at level 70, no associativity) : Q_scope.
Notation "x >? y" := (Qltb y x)
  (at level 70, no associativity, only parsing) : Q_scope.

(** Python [int] used as a number in float arithmetic. *)
Definition of_int (n : nat) : Q := inject_Z (Z.of_nat n).

(** ** The robot as seen from the program *)

Inductive Event : Type :=
| EvReflection (value : Q)         (* color_sensor.reflection() returned value *)
| EvDrive (speed turn_rate : Q)    (* robot.drive(speed, turn_rate) *)
| EvTurn (angle : Z)               (* robot.turn(angle) *)
| EvStop.                          (* robot.stop() *)

Inductive Exn : Type :=
| AttributeError
| ZeroDivisionError.

(** The strings returned by [detect_sharp_curve]; Python's [None] is the
    [None] of [option Curve]. *)
Inductive Curve : Type := sharp_left | sharp_right.

Definition is_turn (e : Event) : bool :=
  match e with EvTurn _ => true | _ => false end.

Definition is_reflection (e : Event) : bool :=
  match e with EvReflection _ => true | _ => false end.

Definition is_stop (e : Event) : bool :=
  match e with EvStop => true | _ => false end.

Definition count_events (p : Event -> bool) (log : list Event) : nat :=
  length (filter p log).

(** ** Perfect_Program.py *)

Module Perfect.

(** The attributes of a [LineTracer] object.  [gray_zone] is the one
    attribute that [__init__] does not create: it exists only once
    [calibrate] has run, hence the [option]. *)
Record LineTracer : Type := mkLineTracer {
  black_threshold : Q;
  white_threshold : Q;
  target_value : Q;
  kp : Q;
  ki : Q;
  kd : Q;
  integral : Q;
  last_error : Q;
  integral_limit : Q;
  base_speed : Q;
  max_turn_rate : Q;
  error_history : list Q;
  history_size : nat;
  is_calibrated : bool;
  line_position : Z;
  gray_zone : option Q
}.

(** [LineTracer.__init__] *)
Definition init : LineTracer :=
  let black := 10 in
  let white := 85 in
  {| black_threshold := black;
     white_threshold := white;
     target_value := (black + white) / 2;
     kp := 2.0;
     ki := 0.02;
     kd := 0.8;
     integral := 0;
     last_error := 0;
     integral_limit := 100;
     base_speed := 150;
     max_turn_rate := 250;
     error_history := [];
     history_size := 10;
     is_calibrated := false;
     line_position := 0%Z;
     gray_zone := None |}.

(** Attribute assignments [self.x = v]. *)
Definition set_integral (self : LineTracer) (v : Q) : LineTracer :=
  {| black_threshold := black_threshold self;
     white_threshold := white_threshold self;
     target_value := target_value self;
     kp := kp self; ki := ki self; kd := kd self;
     integral := v;
     last_error := last_error self;
     integral_limit := integral_limit self;
     base_speed := base_speed self;
     max_turn_rate := max_turn_rate self;
     error_history := error_history self;
     history_size := history_size self;
     is_calibrated := is_calibrated self;
     line_position := line_position self;
     gray_zone := gray_zone self |}.

Definition set_last_error (self : LineTracer) (v : Q) : LineTracer :=
  {| black_threshold := black_threshold self;
     white_threshold := white_threshold self;
     target_value := target_value self;
     kp := kp self; ki := ki self; kd := kd self;
     integral := integral self;
     last_error := v;
     integral_limit := integral_limit self;
     base_speed := base_speed self;
     max_turn_rate := max_turn_rate self;
     error_history := error_history self;
     history_size := history_size self;
     is_calibrated := is_calibrated self;
     line_position := line_position self;
     gray_zone := gray_zone self |}.

Definition set_error_history (self : LineTracer) (h : list Q) : LineTracer :=
  {| black_threshold := black_threshold self;
     white_threshold := white_threshold self;
     target_value := target_value self;
     kp := kp self; ki := ki self; kd := kd self;
     integral := integral self;
     last_error := last_error self;
     integral_limit := integral_limit self;
     base_speed := base_speed self;
     max_turn_rate := max_turn_rate self;
     error_history := h;
     history_size := history_size self;
     is_calibrated := is_calibrated self;
     line_position := line_position self;
     gray_zone := gray_zone self |}.

Definition set_line_position (self : LineTracer) (p : Z) : LineTracer :=
  {| black_threshold := black_threshold self;
     white_threshold := white_threshold self;
     target_value := target_value self;
     kp := kp self; ki := ki self; kd := kd self;
     integral := integral self;
     last_error := last_error self;
     integral_limit := integral_limit self;
     base_speed := base_speed self;
     max_turn_rate := max_turn_rate self;
     error_history := error_history self;
     history_size := history_size self;
     is_calibrated := is_calibrated self;
     line_position := p;
     gray_zone := gray_zone self |}.

Definition set_kp (self : LineTracer) (v : Q) : LineTracer :=
  {| black_threshold := black_threshold self;
     white_threshold := white_threshold self;
     target_value := target_value self;
     kp := v; ki := ki self; kd := kd self;
     integral := integral self;
     last_error := last_error self;
     integral_limit := integral_limit self;
     base_speed := base_speed self;
     max_turn_rate := max_turn_rate self;
     error_history := error_history self;
     history_size := history_size self;
     is_calibrated := is_calibrated self;
     line_position := line_position self;
     gray_zone := gray_zone self |}.

Definition set_base_speed (self : LineTracer) (v : Q) : LineTracer :=
  {| black_threshold := black_threshold self;
     white_threshold := white_threshold self;
     target_value := target_value self;
     kp := kp self; ki := ki self; kd := kd self;
     integral := integral self;
     last_error := last_error self;
     integral_limit := integral_limit self;
     base_speed := v;
     max_turn_rate := max_turn_rate self;
     error_history := error_history self;
     history_size := history_size self;
     is_calibrated := is_calibrated self;
     line_position := line_position self;
     gray_zone := gray_zone self |}.

(** [LineTracer.calibrate].  [white_value] and [black_value] are the two
    reflectances read when the centre button is pressed; the polling loops
    before them only print. *)
Definition calibrate (self : LineTracer) (white_value black_value : Q)
  : LineTracer :=
  let black := black_value + 5 in
  let white := white_value - 5 in
  {| black_threshold := black;
     white_threshold := white;
     target_value := (black + white) / 2;
     kp := kp self; ki := ki self; kd := kd self;
     integral := integral self;
     last_error := last_error self;
     integral_limit := integral_limit self;
     base_speed := base_speed self;
     max_turn_rate := max_turn_rate self;
     error_history := error_history self;
     history_size := history_size self;
     is_calibrated := true;
     line_position := line_position self;
     gray_zone := Some ((white - black) * 0.3) |}.

(** [LineTracer.detect_oscillation]: the loop over
    [range(1, len(self.error_history))]. *)
Definition sign_changes (h : list Q) : nat :=
  fold_left
    (fun count i =>
       if nth i h 0 * nth (i - 1) h 0 <? 0 then S count else count)
    (seq 1 (length h - 1)) 0%nat.

Definition detect_oscillation (self : LineTracer) : bool :=
  if (length (error_history self) <? history_size self)%nat then false
  else of_int (sign_changes (error_history self))
       >? of_int (history_size self) * 0.6.

(** [self.error_history.append(error)] followed by the eviction
    [pop(0)] when the list is longer than [history_size]. *)
Definition record_error (size : nat) (h : list Q) (error : Q) : list Q :=
  let h := h ++ [error] in
  if (size <? length h)%nat then tl h else h.

(** [LineTracer.calculate_pid]: returns the turn rate and the object after
    the call. *)
Definition calculate_pid (self : LineTracer) (sensor_value : Q)
  : Q * LineTracer :=
  let error := sensor_value - target_value self in
  let self :=
    set_error_history self
      (record_error (history_size self) (error_history self) error) in
  let self := set_integral self (integral self + error) in
  let self :=
    if integral self >? integral_limit self then
      set_integral self (integral_limit self)
    else if integral self <? - integral_limit self then
      set_integral self (- integral_limit self)
    else self in
  let self :=
    if detect_oscillation self then set_integral self (integral self * 0.5)
    else self in
  let derivative := error - last_error self in
  let turn_rate :=
    kp self * error + ki self * integral self + kd self * derivative in
  let turn_rate :=
    if turn_rate >? max_turn_rate self then max_turn_rate self
    else if turn_rate <? - max_turn_rate self then - max_turn_rate self
    else turn_rate in
  let self := set_last_error self error in
  (turn_rate, self).

(** [LineTracer.detect_sharp_curve] *)
Definition detect_sharp_curve (self : LineTracer) (sensor_value : Q)
  : option Curve :=
  if sensor_value <? black_threshold self + 10 then Some sharp_left
  else if sensor_value >? white_threshold self - 10 then Some sharp_right
  else None.

(** [LineTracer.search_line].  [readings k] is the reflectance returned by
    the sensor read that follows the [k]-th pivot turn of this search. *)
Definition search_pattern (self : LineTracer) : list Z :=
  if (line_position self <? 0)%Z then [30; -60; 90; -120; 150; -180]%Z
  else [-30; 60; -90; 120; -150; 180]%Z.

Fixpoint sweep (self : LineTracer) (pattern : list Z) (readings : nat -> Q)
  (log : list Event) : bool * LineTracer * list Event :=
  match pattern with
  | [] => (false, self, log ++ [EvStop])
  | angle :: rest =>
      let log := log ++ [EvTurn angle] in
      let reflection := readings 0%nat in
      let log := log ++ [EvReflection reflection] in
      if reflection <? target_value self then
        (true, set_line_position self (if (angle >? 0)%Z then -1 else 1)%Z, log)
      else sweep self rest (fun k => readings (S k)) log
  end.

Definition search_line (self : LineTracer) (readings : nat -> Q)
  (log : list Event) : bool * LineTracer * list Event :=
  sweep self (search_pattern self) readings log.

(** *** The control loop of [LineTracer.follow_line] *)

(** What the devices answer during one iteration of the loop. *)
Record TickInput : Type := mkTickInput {
  button_center : bool;          (* Button.CENTER in hub.buttons.pressed() *)
  sensor_reading : Q;            (* color_sensor.reflection() of the iteration *)
  search_readings : nat -> Q     (* the reads of a search in this iteration *)
}.

(** The object, the local [lost_line_count] and the events so far. *)
Record Loop : Type := mkLoop {
  tracer : LineTracer;
  lost_line_count : nat;
  log : list Event
}.

(** Why the loop is left: [break] on the button, [break] on a failed search,
    or an exception that escapes [follow_line]. *)
Inductive Exit : Type :=
| ButtonStop
| LineLost
| Raised (e : Exn).

(** Loop body, first part: the lost-line counter and the search.  The
    boolean is [false] when the body executes [break]. *)
Definition check_lost_line (st : Loop) (sensor_value : Q)
  (readings : nat -> Q) : bool * Loop :=
  let self := tracer st in
  if sensor_value >? white_threshold self + 5 then
    let lost := S (lost_line_count st) in
    if (5 <? lost)%nat then
      let '(found, self, log) := search_line self readings (log st) in
      if negb found then (false, mkLoop self lost log)
      else (true, mkLoop self 0 log)
    else (true, mkLoop self lost (log st))
  else (true, mkLoop self 0 (log st)).

(** Loop body, second part: sharp curve or PID control. *)
Definition steer (st : Loop) (sensor_value : Q) : option Exn * Loop :=
  let self := tracer st in
  match detect_sharp_curve self sensor_value with
  | Some sharp_left =>
      let log :=
        log st ++ [EvDrive (base_speed self * 0.5) (- max_turn_rate self * 0.8)] in
      (None, mkLoop (set_line_position self (-1)) (lost_line_count st) log)
  | Some sharp_right =>
      let log :=
        log st ++ [EvDrive (base_speed self * 0.5) (max_turn_rate self * 0.8)] in
      (None, mkLoop (set_line_position self 1) (lost_line_count st) log)
  | None =>
      let (turn_rate, self) := calculate_pid self sensor_value in
      if Qeq_bool (max_turn_rate self) 0 then
        (Some ZeroDivisionError, mkLoop self (lost_line_count st) (log st))
      else
        let speed_factor := 1 - (Qabs turn_rate / max_turn_rate self) * 0.4 in
        let current_speed := base_speed self * speed_factor in
        let log := log st ++ [EvDrive current_speed turn_rate] in
        match gray_zone self with
        | None => (Some AttributeError, mkLoop self (lost_line_count st) log)
        | Some gray =>
            let position :=
              if Qabs (sensor_value - target_value self) <? gray then 0%Z
              else if sensor_value <? target_value self then (-1)%Z
              else 1%Z in
            (None, mkLoop (set_line_position self position)
                          (lost_line_count st) log)
        end
  end.

(** One iteration of [while True].  [None] means the loop goes on. *)
Definition tick (st : Loop) (inp : TickInput) : option Exit * Loop :=
  if button_center inp then (Some ButtonStop, st)
  else
    let sensor_value := sensor_reading inp in
    let st :=
      mkLoop (tracer st) (lost_line_count st)
             (log st ++ [EvReflection sensor_value]) in
    let (go_on, st) := check_lost_line st sensor_value (search_readings inp) in
    if negb go_on then (Some LineLost, st)
    else
      match steer st sensor_value with
      | (Some e, st) => (Some (Raised e), st)
      | (None, st) => (None, st)
      end.

(** The loop over the iterations for which device answers are given; the
    result is [None] when the loop is still running after them. *)
Fixpoint follow_loop (st : Loop) (inputs : list TickInput)
  : option Exit * Loop :=
  match inputs with
  | [] => (None, st)
  | inp :: rest =>
      match tick st inp with
      | (None, st') => follow_loop st' rest
      | stopped => stopped
      end
  end.

(** [LineTracer.follow_line].  The two samples are the ones [calibrate]
    reads when it is run from here.  After the loop the robot is stopped;
    an exception skips that part. *)
Definition follow_line (self : LineTracer) (white_value black_value : Q)
  (inputs : list TickInput) : option Exit * Loop :=
  let self :=
    if negb (is_calibrated self) then calibrate self white_value black_value
    else self in
  let (exit, st) := follow_loop (mkLoop self 0 []) inputs in
  match exit with
  | Some (Raised _) | None => (exit, st)
  | Some _ =>
      (exit, mkLoop (tracer st) (lost_line_count st) (log st ++ [EvStop]))
  end.

(** [LineTracer.advanced_settings]: one list of pressed buttons per poll.
    The steps of [kp] are the exact decimal 0.1 here; the floats of the
    program round them, so nothing below is stated about the size of a
    step of [kp]. *)
Inductive Button : Type := LEFT | RIGHT | UP | DOWN | CENTER.

Definition Button_eqb (a b : Button) : bool :=
  match a, b with
  | LEFT, LEFT | RIGHT, RIGHT | UP, UP | DOWN, DOWN | CENTER, CENTER => true
  | _, _ => false
  end.

Definition pressed (b : Button) (buttons : list Button) : bool :=
  existsb (Button_eqb b) buttons.

Fixpoint advanced_settings (self : LineTracer) (polls : list (list Button))
  : LineTracer :=
  match polls with
  | [] => self
  | buttons :: rest =>
      if pressed LEFT buttons then
        advanced_settings (set_kp self (kp self - 0.1)) rest
      else if pressed RIGHT buttons then
        advanced_settings (set_kp self (kp self + 0.1)) rest
      else if pressed UP buttons then
        advanced_settings (set_base_speed self (base_speed self + 10)) rest
      else if pressed DOWN buttons then
        let self := set_base_speed self (base_speed self - 10) in
        let self :=
          if base_speed self <? 50 then set_base_speed self 50 else self in
        advanced_settings self rest
      else if pressed CENTER buttons then self
      else advanced_settings self rest
  end.

(** [LineTracer.test_sensors]: the state shown for one reflectance, and the
    states shown until the centre button is seen pressed.  A poll is the
    button state read by the loop test and the reflectance read in the
    body. *)
Inductive Status : Type := Black | White | Gray.

Definition sensor_status (self : LineTracer) (reflection : Q) : Status :=
  if reflection <? black_threshold self then Black
  else if reflection >? white_threshold self then White
  else Gray.

Fixpoint test_sensors (self : LineTracer) (polls : list (bool * Q))
  : list Status :=
  match polls with
  | [] => []
  | (center, reflection) :: rest =>
      if center then []
      else sensor_status self reflection :: test_sensors self rest
  end.

(** [main]: the menu loop and the mode it starts.  [menu] holds the buttons
    seen at each poll of the menu; the samples are those read by [calibrate];
    [fallback_white] and [fallback_black] are what the sensor would answer
    if [follow_line] calibrated again.  The result is [None] while the menu
    is still polling. *)
Inductive Session : Type :=
| Tested (self : LineTracer)              (* the sensor test was run *)
| Traced (result : option Exit * Loop).   (* follow_line was run *)

Fixpoint main (menu : list (list Button)) (white_value black_value : Q)
  (settings : list (list Button)) (fallback_white fallback_black : Q)
  (inputs : list TickInput) : option Session :=
  let tracer := init in
  match menu with
  | [] => None
  | buttons :: rest =>
      if pressed LEFT buttons then Some (Tested tracer)
      else if pressed RIGHT buttons then
        let tracer := calibrate tracer white_value black_value in
        let tracer := advanced_settings tracer settings in
        Some (Traced
                (follow_line tracer fallback_white fallback_black inputs))
      else if pressed CENTER buttons then
        let tracer := calibrate tracer white_value black_value in
        Some (Traced
                (follow_line tracer fallback_white fallback_black inputs))
      else if pressed UP buttons then
        let tracer := calibrate tracer white_value black_value in
        Some (Traced
                (follow_line tracer fallback_white fallback_black inputs))
      else
        main rest white_value black_value settings fallback_white
             fallback_black inputs
  end.

End Perfect.

(** ** Level4_Program.py *)

Module Level4.

(** Module-level constants. *)
Definition integral_limit : Q := 100.
Definition BASE_SPEED : Q := 150.
Definition KP : Q := 2.0.
Definition KI : Q := 0.02.
Definition KD : Q := 0.8.

(** The local constant [max_turn] of [calculate_pid_control]. *)
Definition max_turn : Q := 250.

(** The module-level variables written by the functions and the main loop. *)
Record Globals : Type := mkGlobals {
  integral : Q;
  last_error : Q;
  lost_line_count : nat;
  log : list Event
}.

(** The triple returned by [calibrate]. *)
Record Calibration : Type := mkCalibration {
  TARGET_VALUE : Q;
  BLACK_THRESHOLD : Q;
  WHITE_THRESHOLD : Q
}.

Definition calibrate (white_value black_value : Q) : Calibration :=
  let target := (white_value + black_value) / 2 in
  let black_threshold := black_value + 5 in
  let white_threshold := white_value - 5 in
  mkCalibration target black_threshold white_threshold.

(** [calculate_pid_control]: returns [(turn_rate, error)] and the globals
    after the call. *)
Definition calculate_pid_control (g : Globals)
  (sensor_value target_value kp ki kd : Q) : (Q * Q) * Globals :=
  let error := sensor_value - target_value in
  let integral := integral g + error in
  let integral :=
    if integral >? integral_limit then integral_limit
    else if integral <? - integral_limit then - integral_limit
    else integral in
  let derivative := error - last_error g in
  let turn_rate := (kp * error) + (ki * integral) + (kd * derivative) in
  let turn_rate :=
    if turn_rate >? max_turn then max_turn
    else if turn_rate <? - max_turn then - max_turn
    else turn_rate in
  ((turn_rate, error), mkGlobals integral error (lost_line_count g) (log g)).

(** [search_line] *)
Definition search_angles : list Z := [30; -60; 90; -120; 150]%Z.

Fixpoint sweep (target_value : Q) (angles : list Z) (readings : nat -> Q)
  (log : list Event) : bool * list Event :=
  match angles with
  | [] => (false, log)
  | angle :: rest =>
      let log := log ++ [EvTurn angle] in
      let reflection := readings 0%nat in
      let log := log ++ [EvReflection reflection] in
      if reflection <? target_value then (true, log)
      else sweep target_value rest (fun k => readings (S k)) log
  end.

Definition search_line (target_value : Q) (readings : nat -> Q)
  (log : list Event) : bool * list Event :=
  sweep target_value search_angles readings log.

(** [detect_sharp_curve] *)
Definition detect_sharp_curve (sensor_value black_thresh white_thresh : Q)
  : option Curve :=
  if sensor_value <? black_thresh + 5 then Some sharp_left
  else if sensor_value >? white_thresh - 5 then Some sharp_right
  else None.

(** [adjust_speed] *)
Definition adjust_speed (base_speed error : Q) : Q :=
  let speed := base_speed - Qabs error * 0.8 in
  if speed <? 50 then 50 else speed.

(** Main loop body, first part: the lost-line counter and the search.  The
    boolean is [false] when the body executes [break]. *)
Definition check_lost_line (c : Calibration) (g : Globals) (reflection : Q)
  (readings : nat -> Q) : bool * Globals :=
  if reflection >? WHITE_THRESHOLD c + 5 then
    let lost := S (lost_line_count g) in
    if (5 <? lost)%nat then
      let (found, log) := search_line (TARGET_VALUE c) readings (log g) in
      if negb found then
        (false, mkGlobals (integral g) (last_error g) lost log)
      else (true, mkGlobals 0 (last_error g) 0 log)
    else (true, mkGlobals (integral g) (last_error g) lost (log g))
  else (true, mkGlobals (integral g) (last_error g) 0 (log g)).

(** Main loop body, second part: sharp curve or PID control. *)
Definition steer (c : Calibration) (g : Globals) (reflection : Q) : Globals :=
  match
    detect_sharp_curve reflection (BLACK_THRESHOLD c) (WHITE_THRESHOLD c)
  with
  | Some sharp_left =>
      mkGlobals 0 (last_error g) (lost_line_count g)
                (log g ++ [EvDrive (BASE_SPEED * 0.5) (-200)])
  | Some sharp_right =>
      mkGlobals 0 (last_error g) (lost_line_count g)
                (log g ++ [EvDrive (BASE_SPEED * 0.5) 200])
  | None =>
      let '(turn_rate, error, g) :=
        calculate_pid_control g reflection (TARGET_VALUE c) KP KI KD in
      let current_speed := adjust_speed BASE_SPEED error in
      mkGlobals (integral g) (last_error g) (lost_line_count g)
                (log g ++ [EvDrive current_speed turn_rate])
  end.

(** One iteration of the main loop; the boolean is [false] on [break]. *)
Definition tick (c : Calibration) (g : Globals) (button_center : bool)
  (reflection : Q) (readings : nat -> Q) : bool * Globals :=
  if button_center then (false, g)
  else
    let g :=
      mkGlobals (integral g) (last_error g) (lost_line_count g)
                (log g ++ [EvReflection reflection]) in
    let (go_on, g) := check_lost_line c g reflection readings in
    if negb go_on then (false, g) else (true, steer c g reflection).

(** The main loop over the iterations for which device answers are given;
    the boolean is [true] when the loop is still running after them. *)
Fixpoint main_loop (c : Calibration) (g : Globals)
  (inputs : list Perfect.TickInput) : bool * Globals :=
  match inputs with
  | [] => (true, g)
  | inp :: rest =>
      match
        tick c g (Perfect.button_center inp) (Perfect.sensor_reading inp)
          (Perfect.search_readings inp)
      with
      | (true, g') => main_loop c g' rest
      | stopped => stopped
      end
  end.

(** The script: calibration, the main loop from the initial globals, and
    [robot.stop()] once the loop is left. *)
Definition program (white_value black_value : Q)
  (inputs : list Perfect.TickInput) : bool * Globals :=
  let c := calibrate white_value black_value in
  let (running, g) := main_loop c (mkGlobals 0 0 0 []) inputs in
  if running then (true, g)
  else
    (false,
     mkGlobals (integral g) (last_error g) (lost_line_count g)
               (log g ++ [EvStop])).

End Level4.

(** * Properties *)

Import Perfect.

(** ** Vocabulary of the statements *)

(** The idiom [if x > limit: x = limit elif x < -limit: x = -limit], used
    for the integral and for the turn rate. *)
Definition clamp (limit x : Q) : Q :=
  if x >? limit then limit else if x <? - limit then - limit else x.

(** Saturation into the interval [[-bound, bound]]. *)
Definition saturate (bound x : Q) : Q := Qmax (- bound) (Qmin bound x).

Definition pid_error (self : LineTracer) (v : Q) : Q := v - target_value self.

Definition pid_history (self : LineTracer) (v : Q) : list Q :=
  record_error (history_size self) (error_history self) (pid_error self v).

(** The accumulator after the anti-windup clamp. *)
Definition pid_clamped (self : LineTracer) (v : Q) : Q :=
  clamp (integral_limit self) (integral self + pid_error self v).

Definition pid_oscillating (self : LineTracer) (v : Q) : bool :=
  detect_oscillation (set_error_history self (pid_history self v)).

(** The accumulator after the oscillation damping. *)
Definition pid_integral (self : LineTracer) (v : Q) : Q :=
  if pid_oscillating self v then pid_clamped self v * 0.5
  else pid_clamped self v.

Definition pid_raw (self : LineTracer) (v : Q) : Q :=
  kp self * pid_error self v + ki self * pid_integral self v
  + kd self * (pid_error self v - last_error self).

(** The regulator fed with a sequence of sensor values. *)
Definition run_pid (self : LineTracer) (values : list Q) : LineTracer :=
  fold_left (fun s v => snd (calculate_pid s v)) values self.

(** The tracer of scenario B: setpoint 50, gains 2.0, 0 and 0. *)
Definition scenario_B : LineTracer :=
  {| black_threshold := 10; white_threshold := 90; target_value := 50;
     kp := 2.0; ki := 0; kd := 0;
     integral := 0; last_error := 0; integral_limit := 100;
     base_speed := 150; max_turn_rate := 250;
     error_history := []; history_size := 10;
     is_calibrated := true; line_position := 0%Z; gray_zone := Some 21 |}.

(** Strictly opposite signs: one number negative, the other positive. *)
Definition opposite_signs (a b : Q) : bool :=
  ((a <? 0) && (0 <? b)) || ((0 <? a) && (b <? 0)).

(** The number of adjacent pairs of a list with strictly opposite signs. *)
Fixpoint opposite_sign_pairs (h : list Q) : nat :=
  match h with
  | a :: (b :: _) as rest =>
      ((if opposite_signs a b then 1 else 0) + opposite_sign_pairs rest)%nat
  | _ => 0%nat
  end.

(** A sequence whose consecutive entries have strictly opposite signs. *)
Fixpoint alternating (h : list Q) : Prop :=
  match h with
  | a :: (b :: _) as rest => opposite_signs a b = true /\ alternating rest
  | _ => True
  end.

(** The body of the counting loop of [detect_oscillation]. *)
Definition count_step (h : list Q) (count i : nat) : nat :=
  if nth i h 0 * nth (i - 1) h 0 <? 0 then S count else count.

(** Nine sensor values on alternating sides of the setpoint 47.5 of a fresh
    tracer; a tenth one fills the history. *)
Definition zigzag : list Q := [50; 45; 50; 45; 50; 45; 50; 45; 50].

Definition is_drive (e : Event) : bool :=
  match e with EvDrive _ _ => true | _ => false end.

(** [s'] is [s] up to the attribute [line_position]. *)
Definition moved (s s' : LineTracer) : Prop :=
  exists p : Z, s' = set_line_position s p.

(** The turn rate of the fixed turn commanded in a sharp curve. *)
Definition sharp_turn (c : Curve) (max_turn_rate : Q) : Q :=
  match c with
  | sharp_left => - (max_turn_rate * 0.8)
  | sharp_right => max_turn_rate * 0.8
  end.

Definition sharp_position (c : Curve) : Z :=
  match c with sharp_left => (-1)%Z | sharp_right => 1%Z end.

(** A calibrated tracer on the line: target 50, thresholds 15 and 85. *)
Definition on_track : Loop := mkLoop (calibrate init 90 10) 0 [].

Definition reading (v : Q) : TickInput := mkTickInput false v (fun _ => 100).

(** The number of pivot turns commanded so far.  Pivot turns are commanded
    by [search_line] only, one at least each time it runs. *)
Definition turns (st : Loop) : nat := count_events is_turn (log st).

(** The search is entered in the tick of [st] on [inp]. *)
Definition enters_search (st : Loop) (inp : TickInput) : Prop :=
  (turns st < turns (snd (tick st inp)))%nat.

(** A tick that goes past the button test and reads above
    [white_threshold + 5]. *)
Definition lost_tick (white : Q) (inp : TickInput) : Prop :=
  button_center inp = false /\ white + 5 < sensor_reading inp.

(** At a tick boundary the counter is at most 5 and counts the lost ticks
    that end the history of the loop. *)
Definition counter_inv (white : Q) (hist : list TickInput) (st : Loop)
  : Prop :=
  white_threshold (tracer st) = white
  /\ (lost_line_count st <= 5)%nat
  /\ exists before recent,
       hist = before ++ recent
       /\ length recent = lost_line_count st
       /\ Forall (lost_tick white) recent.

(** The events of a sweep in which no reading stops the search: each pivot
    turn followed by one sensor read. *)
Fixpoint sweep_log (pattern : list Z) (readings : nat -> Q) : list Event :=
  match pattern with
  | [] => []
  | angle :: rest =>
      EvTurn angle :: EvReflection (readings 0%nat)
      :: sweep_log rest (fun k => readings (S k))
  end.

(** The loop of [follow_line] starts from the tracer, calibrated if it was
    not, a counter at 0 and no event. *)
Definition start (self : LineTracer) (white_value black_value : Q) : Loop :=
  mkLoop (if negb (is_calibrated self)
          then calibrate self white_value black_value else self) 0 [].

(** The loop after five lost ticks at 95 on a tracer calibrated with 90
    and 10. *)
Definition after_five : Loop :=
  snd (follow_loop on_track (repeat (reading 95) 5)).

(** The tracers that the program can hold: the one built by [__init__] and
    those obtained from it by the public methods that write attributes. *)
Inductive reachable : LineTracer -> Prop :=
| reachable_init : reachable init
| reachable_calibrate (s : LineTracer) (white_value black_value : Q) :
    reachable s -> reachable (calibrate s white_value black_value)
| reachable_settings (s : LineTracer) (polls : list (list Button)) :
    reachable s -> reachable (advanced_settings s polls)
| reachable_follow (s : LineTracer) (white_value black_value : Q)
    (inputs : list TickInput) :
    reachable s ->
    reachable (tracer (snd (follow_line s white_value black_value inputs))).

(** The attributes that decide whether the PID branch can raise. *)
Definition same_setup (s s' : LineTracer) : Prop :=
  gray_zone s' = gray_zone s
  /\ max_turn_rate s' = max_turn_rate s
  /\ is_calibrated s' = is_calibrated s.

(** Every tracer the program can hold has the maximum turn rate 250, and a
    gray zone if it is marked as calibrated. *)
Definition ready (s : LineTracer) : Prop :=
  (is_calibrated s = true -> gray_zone s <> None) /\ max_turn_rate s = 250.

(** The turn rates returned while a sequence of sensor values is fed. *)
Fixpoint pid_outputs (self : LineTracer) (values : list Q) : list Q :=
  match values with
  | [] => []
  | v :: rest =>
      fst (calculate_pid self v)
      :: pid_outputs (snd (calculate_pid self v)) rest
  end.

(** [s'] has the configuration of [s]: the calibration, the gains, the
    limits and the speeds. *)
Definition same_config (s s' : LineTracer) : Prop :=
  black_threshold s' = black_threshold s
  /\ white_threshold s' = white_threshold s
  /\ target_value s' = target_value s
  /\ gray_zone s' = gray_zone s
  /\ is_calibrated s' = is_calibrated s
  /\ kp s' = kp s /\ ki s' = ki s /\ kd s' = kd s
  /\ integral_limit s' = integral_limit s
  /\ history_size s' = history_size s
  /\ base_speed s' = base_speed s
  /\ max_turn_rate s' = max_turn_rate s.

(** A drive command within the speeds of the tracer: between half the base
    speed and the base speed, with a turn rate of magnitude at most [max].
    Other events satisfy it. *)
Definition drive_within (base max : Q) (e : Event) : Prop :=
  match e with
  | EvDrive speed turn_rate =>
      0.5 * base <= speed /\ speed <= base /\ Qabs turn_rate <= max
  | _ => True
  end.

(** An event that is neither a drive command nor a stop. *)
Definition quiet (e : Event) : Prop := is_drive e = false /\ is_stop e = false.

(** [s'] differs from [s] in the two attributes that the settings menu
    writes, [kp] and [base_speed], at most. *)
Definition settings_only (s s' : LineTracer) : Prop :=
  black_threshold s' = black_threshold s
  /\ white_threshold s' = white_threshold s
  /\ target_value s' = target_value s
  /\ gray_zone s' = gray_zone s
  /\ is_calibrated s' = is_calibrated s
  /\ ki s' = ki s /\ kd s' = kd s
  /\ integral s' = integral s
  /\ last_error s' = last_error s
  /\ error_history s' = error_history s
  /\ integral_limit s' = integral_limit s
  /\ history_size s' = history_size s
  /\ max_turn_rate s' = max_turn_rate s
  /\ line_position s' = line_position s.

(** The state of a tracer that the program can hold. *)
Definition well_formed (s : LineTracer) : Prop :=
  (line_position s = (-1)%Z \/ line_position s = 0%Z
   \/ line_position s = 1%Z)
  /\ 50 <= base_speed s
  /\ Qabs (integral s) <= 100
  /\ integral_limit s = 100
  /\ (length (error_history s) <= 10)%nat
  /\ history_size s = 10%nat
  /\ max_turn_rate s = 250.

(** A drive command within the speeds of Level 4: a speed between 50 and
    [BASE_SPEED], a turn rate of magnitude at most [max_turn].  Other
    events satisfy it. *)
Definition drive_within_Level4 (e : Event) : Prop :=
  match e with
  | EvDrive speed turn_rate =>
      50 <= speed /\ speed <= Level4.BASE_SPEED
      /\ Qabs turn_rate <= Level4.max_turn
  | _ => True
  end.

(** What the main loop of Level 4 keeps true of its globals and of the
    commands it has sent while it runs. *)
Definition running_Level4 (g : Level4.Globals) : Prop :=
  Qabs (Level4.integral g) <= Level4.integral_limit
  /\ Forall drive_within_Level4 (Level4.log g)
  /\ count_events is_stop (Level4.log g) = 0%nat.

(** * Proofs *)

(** ** Comparisons and saturation *)

Lemma Qltb_lt (x y : Q) : (x <? y) = true <-> x < y.
Proof.
  unfold Qltb. rewrite negb_true_iff. split; intro H.
  - apply Qnot_le_lt. intro Hle. apply Qle_bool_iff in Hle. congruence.
  - destruct (Qle_bool y x) eqn:E; auto. apply Qle_bool_iff in E. lra.
Qed.

Lemma Qltb_ge (x y : Q) : (x <? y) = false <-> y <= x.
Proof.
  unfold Qltb. rewrite negb_false_iff. apply Qle_bool_iff.
Qed.

#[global] Instance Qltb_compat : Proper (Qeq ==> Qeq ==> eq) Qltb.
Proof.
  intros x x' Hx y y' Hy. unfold Qltb. now rewrite Hx, Hy.
Qed.

(** Turns every test [a <? b] of the goal into the two cases [a < b] and
    [b <= a]. *)
Ltac by_cases :=
  repeat match goal with
  | |- context [Qltb ?a ?b] =>
      let E := fresh "E" in
      destruct (Qltb a b) eqn:E;
      [apply Qltb_lt in E | apply Qltb_ge in E]
  end.

(** Division by two as a multiplication, for linear arithmetic. *)
Ltac halve := unfold Qdiv in *; change (/ 2) with (1 # 2) in *.

(** Case analysis on the innermost test of a conditional. *)
Ltac split_if :=
  match goal with
  | |- context [if ?c then _ else _] =>
      lazymatch c with
      | context [if _ then _ else _] => fail
      | _ => destruct c
      end
  end.

(** Evaluates attribute reads and writes on [LineTracer] objects, leaving
    the arithmetic as it is. *)
Ltac tracer_simpl :=
  cbv beta iota zeta delta
    [fst snd black_threshold white_threshold target_value kp ki kd integral
     last_error integral_limit base_speed max_turn_rate error_history
     history_size is_calibrated line_position gray_zone
     set_integral set_last_error set_error_history set_line_position
     set_kp set_base_speed calibrate calculate_pid detect_oscillation
     detect_sharp_curve] in *.

Lemma clamp_saturate (bound x : Q) :
  0 <= bound -> clamp bound x == saturate bound x.
Proof.
  intros Hb. unfold saturate, clamp.
  destruct (Q.min_spec bound x) as [[H1 H2]|[H1 H2]];
  destruct (Q.max_spec (- bound) (Qmin bound x)) as [[H3 H4]|[H3 H4]];
  rewrite H4; try rewrite H2; rewrite H2 in H3; by_cases; lra.
Qed.

Lemma clamp_abs (limit x : Q) : 0 <= limit -> Qabs (clamp limit x) <= limit.
Proof.
  intros Hl. apply Qabs_Qle_condition. unfold clamp. by_cases; lra.
Qed.

Lemma half_abs (limit x : Q) : Qabs x <= limit -> Qabs (x * 0.5) <= limit.
Proof.
  intros H. apply Qabs_Qle_condition in H. apply Qabs_Qle_condition. lra.
Qed.

(** ** The regulator step by step *)

Lemma calculate_pid_unfold (self : LineTracer) (v : Q) :
  calculate_pid self v =
  (clamp (max_turn_rate self) (pid_raw self v),
   set_last_error
     (set_integral (set_error_history self (pid_history self v))
                   (pid_integral self v))
     (pid_error self v)).
Proof.
  destruct self.
  unfold pid_raw, pid_integral, pid_oscillating, pid_clamped,
    pid_history, pid_error, clamp.
  tracer_simpl.
  repeat (split_if; tracer_simpl); reflexivity.
Qed.

Lemma detect_oscillation_history (s s' : LineTracer) :
  error_history s = error_history s' -> history_size s = history_size s' ->
  detect_oscillation s = detect_oscillation s'.
Proof.
  intros Hh Hs. unfold detect_oscillation. now rewrite Hh, Hs.
Qed.

Lemma run_pid_app (self : LineTracer) (vs ws : list Q) :
  run_pid self (vs ++ ws) = run_pid (run_pid self vs) ws.
Proof. apply fold_left_app. Qed.

Lemma calculate_pid_config (self : LineTracer) (v : Q) :
  let s := snd (calculate_pid self v) in
  target_value s = target_value self
  /\ integral_limit s = integral_limit self
  /\ history_size s = history_size self
  /\ max_turn_rate s = max_turn_rate self
  /\ gray_zone s = gray_zone self
  /\ is_calibrated s = is_calibrated self
  /\ base_speed s = base_speed self
  /\ white_threshold s = white_threshold self
  /\ black_threshold s = black_threshold self.
Proof.
  rewrite calculate_pid_unfold. destruct self. tracer_simpl. tauto.
Qed.

Lemma run_pid_config (values : list Q) (self : LineTracer) :
  let s := run_pid self values in
  target_value s = target_value self
  /\ integral_limit s = integral_limit self
  /\ history_size s = history_size self.
Proof.
  revert self. induction values as [|v vs IH]; intros self; cbn.
  - tauto.
  - destruct (IH (snd (calculate_pid self v))) as (H1 & H2 & H3).
    destruct (calculate_pid_config self v) as (K1 & K2 & K3 & _).
    unfold run_pid in *. cbn in *. repeat split; congruence.
Qed.

(** ** C1: the turn rate *)

(** C1.  With a non-negative [max_turn_rate], [calculate_pid] returns
    [kp*error + ki*integral + kd*(error - last_error)] saturated into
    [[-max_turn_rate, max_turn_rate]], where [error] is the sensor value
    minus the target, [integral] is the accumulator stored by the call
    (clamped, and halved when the oscillation test fires) and [last_error]
    is the one stored before the call; so its absolute value is at most
    [max_turn_rate].  For the sensor value 80 with target 50, gains 2, 0, 0,
    zero integral and zero last error, the result is 60 whenever
    [max_turn_rate] is at least 60. *)
Theorem calculate_pid_turn_rate (self : LineTracer) (v : Q) :
  0 <= max_turn_rate self ->
  let error := v - target_value self in
  let turn_rate := fst (calculate_pid self v) in
  let self' := snd (calculate_pid self v) in
  turn_rate ==
    saturate (max_turn_rate self)
      (kp self * error + ki self * integral self'
       + kd self * (error - last_error self))
  /\ Qabs turn_rate <= max_turn_rate self
  /\ integral self' =
       (if detect_oscillation self'
        then clamp (integral_limit self) (integral self + error) * 0.5
        else clamp (integral_limit self) (integral self + error))
  /\ (v == 80 -> target_value self == 50 ->
      kp self == 2 -> ki self == 0 -> kd self == 0 ->
      integral self == 0 -> last_error self == 0 ->
      60 <= max_turn_rate self ->
      turn_rate == 60).
Proof.
  intros Hmax error turn_rate self'.
  subst turn_rate self'. rewrite calculate_pid_unfold. cbn [fst snd].
  assert (Hint : integral
            (set_last_error
               (set_integral (set_error_history self (pid_history self v))
                  (pid_integral self v)) (pid_error self v))
          = pid_integral self v) by (destruct self; reflexivity).
  rewrite Hint.
  split; [|split; [|split]].
  - rewrite clamp_saturate by assumption. reflexivity.
  - apply clamp_abs; assumption.
  - rewrite (detect_oscillation_history
               (set_last_error
                  (set_integral (set_error_history self (pid_history self v))
                     (pid_integral self v)) (pid_error self v))
               (set_error_history self (pid_history self v)))
      by (destruct self; reflexivity).
    reflexivity.
  - intros Hv Ht Hkp Hki Hkd _ _ H60.
    assert (Hraw : pid_raw self v == 60).
    { unfold pid_raw, pid_error. generalize (pid_integral self v) as i.
      intros i. rewrite Hv, Ht, Hkp, Hki, Hkd. ring. }
    unfold clamp. rewrite Hraw. by_cases; lra.
Qed.

Lemma calculate_pid_turn_rate_witness :
  fst (calculate_pid scenario_B 80) == 60
  /\ Qabs (fst (calculate_pid scenario_B 80)) <= 250.
Proof.
  assert (Hmax : 0 <= max_turn_rate scenario_B) by (cbn; lra).
  destruct (calculate_pid_turn_rate scenario_B 80 Hmax) as (_ & Hb & _ & H).
  split.
  - apply H; cbn; lra.
  - exact Hb.
Defined.

(** ** C2: the integral stays within its limit *)

Lemma calculate_pid_integral (self : LineTracer) (v : Q) :
  integral (snd (calculate_pid self v)) = pid_integral self v.
Proof.
  rewrite calculate_pid_unfold. destruct self. reflexivity.
Qed.

Lemma pid_integral_abs (self : LineTracer) (v : Q) :
  0 <= integral_limit self ->
  Qabs (pid_integral self v) <= integral_limit self.
Proof.
  intros Hl. unfold pid_integral, pid_clamped.
  destruct (pid_oscillating self v).
  - apply half_abs, clamp_abs, Hl.
  - apply clamp_abs, Hl.
Qed.

Lemma run_pid_integral_abs (values : list Q) (self : LineTracer) :
  0 <= integral_limit self ->
  Qabs (integral self) <= integral_limit self ->
  Qabs (integral (run_pid self values)) <= integral_limit self.
Proof.
  revert self. induction values as [|v vs IH]; intros self Hl Hi.
  - exact Hi.
  - unfold run_pid in *. cbn [fold_left].
    destruct (calculate_pid_config self v) as (_ & Hlim & _).
    cbv zeta in Hlim. rewrite <- Hlim. apply IH.
    + rewrite Hlim. exact Hl.
    + rewrite Hlim, calculate_pid_integral. apply pid_integral_abs, Hl.
Qed.

Lemma Level4_integral_abs (g : Level4.Globals)
  (sensor_value target_value kp ki kd : Q) :
  Qabs
    (Level4.integral
       (snd (Level4.calculate_pid_control g sensor_value target_value
               kp ki kd)))
  <= Level4.integral_limit.
Proof.
  unfold Level4.calculate_pid_control. cbn [snd Level4.integral].
  apply (clamp_abs Level4.integral_limit). unfold Level4.integral_limit. lra.
Qed.

(** C2.  With a non-negative [integral_limit], feed any sequence of sensor
    values to [calculate_pid] starting from a zero integral: after every
    update (every prefix of the sequence) the stored integral is within
    [[-integral_limit, integral_limit]].  At each further update the value
    after the clamp is within the limit, so is its half, and the stored
    integral is one of the two.  The regulator of Level 4 (limit 100, no
    damping) keeps the same bound. *)
Theorem integral_within_limit (self : LineTracer) (values : list Q) :
  0 <= integral_limit self ->
  integral self == 0 ->
  (forall n : nat,
     let s := run_pid self (firstn n values) in
     Qabs (integral s) <= integral_limit self
     /\ forall v : Q,
          Qabs (pid_clamped s v) <= integral_limit self
          /\ Qabs (pid_clamped s v * 0.5) <= integral_limit self
          /\ integral (snd (calculate_pid s v)) =
               (if detect_oscillation (snd (calculate_pid s v))
                then pid_clamped s v * 0.5 else pid_clamped s v))
  /\ (forall (g : Level4.Globals) (v target kp ki kd : Q),
        Qabs (Level4.integral
                (snd (Level4.calculate_pid_control g v target kp ki kd)))
        <= Level4.integral_limit).
Proof.
  intros Hl H0. split; [|apply Level4_integral_abs].
  intros n s. subst s.
  set (s := run_pid self (firstn n values)).
  assert (Hlim : integral_limit s = integral_limit self)
    by apply (run_pid_config (firstn n values) self).
  split.
  - apply run_pid_integral_abs; [exact Hl|].
    rewrite H0. cbn. exact Hl.
  - intros v. rewrite <- Hlim in *.
    assert (Hc : Qabs (pid_clamped s v) <= integral_limit s)
      by (apply clamp_abs; exact Hl).
    split; [exact Hc|]. split; [apply half_abs, Hc|].
    rewrite calculate_pid_integral. unfold pid_integral, pid_oscillating.
    rewrite (detect_oscillation_history (snd (calculate_pid s v))
               (set_error_history s (pid_history s v))); [reflexivity| |].
    + rewrite calculate_pid_unfold. destruct s; reflexivity.
    + rewrite calculate_pid_unfold. destruct s; reflexivity.
Qed.

Lemma integral_within_limit_witness :
  Qabs (integral (run_pid init (firstn 3 [90; 95; 99; 10]))) <= 100.
Proof.
  assert (Hl : 0 <= integral_limit init) by (cbn; lra).
  assert (H0 : integral init == 0) by reflexivity.
  destruct (integral_within_limit init [90; 95; 99; 10] Hl H0) as [H _].
  exact (proj1 (H 3%nat)).
Defined.

(** ** C3: oscillation detection *)

Lemma negative_product (a b : Q) : (b * a <? 0) = opposite_signs a b.
Proof.
  unfold opposite_signs.
  destruct (b * a <? 0) eqn:P; [apply Qltb_lt in P | apply Qltb_ge in P];
    by_cases; cbn; try reflexivity; exfalso; nra.
Qed.

Lemma count_step_shift (a : Q) (l : list Q) (n k c : nat) :
  (1 <= k)%nat ->
  fold_left (count_step (a :: l)) (seq (S k) n) c
  = fold_left (count_step l) (seq k n) c.
Proof.
  revert k c. induction n as [|n IH]; intros k c Hk; cbn [seq fold_left].
  - reflexivity.
  - rewrite IH by lia. f_equal. unfold count_step.
    replace (S k - 1)%nat with (S (k - 1)) by lia. reflexivity.
Qed.

Lemma count_step_from (h : list Q) (xs : list nat) (c : nat) :
  fold_left (count_step h) xs c = (c + fold_left (count_step h) xs 0)%nat.
Proof.
  revert c. induction xs as [|x xs IH]; intros c; cbn [fold_left].
  - lia.
  - rewrite IH. rewrite (IH (count_step h 0 x)).
    unfold count_step. destruct (_ <? _); lia.
Qed.

Lemma sign_changes_cons (a b : Q) (l : list Q) :
  sign_changes (a :: b :: l)
  = ((if (b * a <? 0)%Q then 1 else 0) + sign_changes (b :: l))%nat.
Proof.
  unfold sign_changes. fold (count_step (a :: b :: l)).
  fold (count_step (b :: l)).
  cbn [length]. replace (S (S (length l)) - 1)%nat with (S (length l)) by lia.
  replace (S (length l) - 1)%nat with (length l) by lia.
  cbn [seq fold_left]. rewrite count_step_shift by lia.
  rewrite count_step_from. reflexivity.
Qed.

Lemma sign_changes_pairs (h : list Q) :
  sign_changes h = opposite_sign_pairs h.
Proof.
  induction h as [|a l IH]; [reflexivity|].
  destruct l as [|b l]; [reflexivity|].
  rewrite sign_changes_cons, IH, negative_product. reflexivity.
Qed.

Lemma alternating_suffix (pre h : list Q) :
  alternating (pre ++ h) -> alternating h.
Proof.
  induction pre as [|a pre IH]; [trivial|].
  cbn [app]. intros H. apply IH.
  destruct (pre ++ h); [exact I | exact (proj2 H)].
Qed.

Lemma alternating_pairs (h : list Q) :
  alternating h -> opposite_sign_pairs h = (length h - 1)%nat.
Proof.
  induction h as [|a l IH]; [reflexivity|].
  destruct l as [|b l]; [reflexivity|].
  intros [Hab Hl].
  change (opposite_sign_pairs (a :: b :: l))
    with ((if opposite_signs a b then 1 else 0)
          + opposite_sign_pairs (b :: l))%nat.
  rewrite Hab, (IH Hl). cbn [length]. lia.
Qed.

(** The history keeps the latest errors, at most [size] of them. *)
Lemma record_error_suffix (size : nat) (h all pre : list Q) (e : Q) :
  (0 < size)%nat ->
  all = pre ++ h ->
  length h = Nat.min (length all) size ->
  exists pre',
    all ++ [e] = pre' ++ record_error size h e
    /\ length (record_error size h e) = Nat.min (length (all ++ [e])) size.
Proof.
  intros Hs Hall Hlen. unfold record_error.
  assert (La : length all = (length pre + length h)%nat)
    by (rewrite Hall; apply length_app).
  rewrite !length_app. cbn [length].
  destruct (size <? length h + 1)%nat eqn:E.
  - apply Nat.ltb_lt in E. destruct h as [|x h'].
    + cbn [length] in *. lia.
    + exists (pre ++ [x]). cbn [app tl length] in *. split.
      * rewrite Hall, <- !app_assoc. reflexivity.
      * rewrite length_app. cbn [length]. lia.
  - apply Nat.ltb_ge in E. exists pre. split.
    + rewrite Hall, <- app_assoc. reflexivity.
    + rewrite length_app. cbn [length]. lia.
Qed.

Lemma calculate_pid_history (self : LineTracer) (v : Q) :
  error_history (snd (calculate_pid self v)) = pid_history self v.
Proof.
  rewrite calculate_pid_unfold. destruct self. reflexivity.
Qed.

Lemma run_pid_history (values : list Q) (self : LineTracer)
  (all pre : list Q) :
  (0 < history_size self)%nat ->
  all = pre ++ error_history self ->
  length (error_history self) = Nat.min (length all) (history_size self) ->
  exists pre',
    all ++ map (pid_error self) values
    = pre' ++ error_history (run_pid self values)
    /\ length (error_history (run_pid self values))
       = Nat.min (length all + length values) (history_size self).
Proof.
  revert self all pre.
  induction values as [|v vs IH]; intros self all pre Hs Hall Hlen.
  - exists pre. cbn. rewrite app_nil_r, Nat.add_0_r. auto.
  - destruct (record_error_suffix (history_size self) (error_history self)
                all pre (pid_error self v) Hs Hall Hlen) as (pre1 & H1 & L1).
    destruct (calculate_pid_config self v) as (Ht & _ & Hsz & _).
    cbv zeta in Ht, Hsz.
    destruct (IH (snd (calculate_pid self v)) (all ++ [pid_error self v]) pre1)
      as (pre2 & H2 & L2).
    + rewrite Hsz. exact Hs.
    + rewrite calculate_pid_history. exact H1.
    + rewrite calculate_pid_history, Hsz. exact L1.
    + exists pre2. unfold run_pid in *. cbn [fold_left map length].
      rewrite Hsz in L2. rewrite length_app in L2. cbn [length] in L2.
      split.
      * rewrite <- H2, <- app_assoc. cbn [app]. do 2 f_equal.
        apply map_ext. intros x. unfold pid_error. now rewrite Ht.
      * rewrite L2. f_equal. lia.
Qed.

Lemma suffix_of_app (l1 l2 pre h : list Q) :
  l1 ++ l2 = pre ++ h -> (length h <= length l2)%nat ->
  exists p, l2 = p ++ h.
Proof.
  revert pre. induction l1 as [|a l1 IH]; intros pre Heq Hlen.
  - exists pre. exact Heq.
  - destruct pre as [|b pre].
    + cbn [app] in Heq. apply (f_equal (@length Q)) in Heq.
      cbn [length] in Heq. rewrite length_app in Heq. lia.
    + cbn [app] in Heq. injection Heq as _ Heq. apply (IH pre); assumption.
Qed.

Lemma threshold_of_ten (n : nat) :
  of_int 10 * 0.6 < of_int n <-> (6 < n)%nat.
Proof.
  assert (H6 : of_int 10 * 0.6 == inject_Z 6) by reflexivity.
  rewrite H6. unfold of_int. rewrite <- Zlt_Qlt. lia.
Qed.

Lemma detect_oscillation_full (self : LineTracer) :
  history_size self = 10%nat ->
  length (error_history self) = 10%nat ->
  detect_oscillation self = true
  <-> (6 < opposite_sign_pairs (error_history self))%nat.
Proof.
  intros Hs Hl. unfold detect_oscillation. rewrite Hs, Hl.
  cbn [Nat.ltb Nat.leb]. rewrite sign_changes_pairs, Qltb_lt.
  apply threshold_of_ten.
Qed.

Lemma calculate_pid_detect (self : LineTracer) (v : Q) :
  detect_oscillation (snd (calculate_pid self v)) = pid_oscillating self v.
Proof.
  unfold pid_oscillating. apply detect_oscillation_history.
  - rewrite calculate_pid_history. destruct self; reflexivity.
  - rewrite calculate_pid_unfold. destruct self; reflexivity.
Qed.

(** C3.  [detect_oscillation] is false while the history holds fewer than
    [history_size] entries.  With [history_size] 10 and a full history it is
    true exactly when more than 6 of the adjacent pairs have strictly
    opposite signs.  In an update where it is true the stored integral is
    the clamped accumulator times 0.5, once, and the turn rate is computed
    from that halved value; where it is false the clamped accumulator is
    stored as it is.  Feeding a regulator whose history holds at most 10
    entries a sequence of at least 10 sensor values whose errors strictly
    alternate in sign makes the test true at the last update, which halves
    the integral. *)
Theorem detect_oscillation_spec (self : LineTracer) :
  ((length (error_history self) < history_size self)%nat ->
   detect_oscillation self = false)
  /\ (history_size self = 10%nat ->
      length (error_history self) = 10%nat ->
      (detect_oscillation self = true
       <-> (6 < opposite_sign_pairs (error_history self))%nat))
  /\ (forall v : Q,
        let error := v - target_value self in
        let clamped := clamp (integral_limit self) (integral self + error) in
        let turn_rate := fst (calculate_pid self v) in
        let self' := snd (calculate_pid self v) in
        (detect_oscillation self' = true ->
         integral self' = clamped * 0.5
         /\ turn_rate =
              clamp (max_turn_rate self)
                (kp self * error + ki self * (clamped * 0.5)
                 + kd self * (error - last_error self)))
        /\ (detect_oscillation self' = false -> integral self' = clamped))
  /\ (forall (values : list Q) (v : Q),
        history_size self = 10%nat ->
        (length (error_history self) <= 10)%nat ->
        alternating (map (fun x => x - target_value self) (values ++ [v])) ->
        (10 <= length (values ++ [v]))%nat ->
        let s := run_pid self values in
        detect_oscillation (snd (calculate_pid s v)) = true
        /\ integral (snd (calculate_pid s v))
           = clamp (integral_limit s) (integral s + (v - target_value s))
             * 0.5).
Proof.
  split; [|split; [|split]].
  - intros Hlt. unfold detect_oscillation.
    apply Nat.ltb_lt in Hlt. now rewrite Hlt.
  - apply detect_oscillation_full.
  - intros v error clamped turn_rate self'. subst turn_rate self'.
    rewrite calculate_pid_detect, calculate_pid_integral.
    rewrite calculate_pid_unfold. cbn [fst].
    unfold pid_raw, pid_integral, pid_clamped, pid_error.
    fold error. fold clamped.
    split; intros Hd; rewrite Hd; auto.
  - intros values v Hs Hh Halt Hlen s.
    assert (Hdet : detect_oscillation (snd (calculate_pid s v)) = true).
    { destruct (run_pid_history (values ++ [v]) self (error_history self) [])
        as (pre & Hp & Hl).
      - lia.
      - reflexivity.
      - rewrite Hs. lia.
      - rewrite Hs in Hl. rewrite run_pid_app in Hp, Hl.
        change (run_pid (run_pid self values) [v])
          with (snd (calculate_pid s v)) in Hp, Hl.
        assert (Hsz : history_size (snd (calculate_pid s v)) = 10%nat).
        { destruct (calculate_pid_config s v) as (_ & _ & Hz & _).
          cbv zeta in Hz. rewrite Hz.
          destruct (run_pid_config values self) as (_ & _ & Hz').
          cbv zeta in Hz'. fold s in Hz'. congruence. }
        assert (Hten : length (error_history (snd (calculate_pid s v)))
                       = 10%nat) by lia.
        apply detect_oscillation_full; [exact Hsz | exact Hten |].
        destruct (suffix_of_app _ _ _ _ Hp) as [p Hsuf].
        { rewrite Hten, length_map. exact Hlen. }
        rewrite alternating_pairs.
        + lia.
        + apply (alternating_suffix p). unfold pid_error in Hsuf.
          rewrite <- Hsuf. exact Halt. }
    split; [exact Hdet|].
    rewrite calculate_pid_detect in Hdet.
    rewrite calculate_pid_integral. unfold pid_integral.
    rewrite Hdet. reflexivity.
Qed.

Lemma detect_oscillation_spec_witness :
  detect_oscillation init = false
  /\ detect_oscillation (snd (calculate_pid (run_pid init zigzag) 45)) = true.
Proof.
  destruct (detect_oscillation_spec init) as (Ha & _ & _ & Hd).
  split.
  - apply Ha. cbn. lia.
  - apply (Hd zigzag 45).
    + reflexivity.
    + cbn. lia.
    + cbn. repeat split.
    + cbn. lia.
Defined.

(** ** C4: calibration *)

Lemma calibrate_profile (self : LineTracer) (white_value black_value : Q) :
  let t := calibrate self white_value black_value in
  black_threshold t = black_value + 5
  /\ white_threshold t = white_value - 5
  /\ target_value t = (black_threshold t + white_threshold t) / 2
  /\ gray_zone t = Some ((white_threshold t - black_threshold t) * 0.3)
  /\ is_calibrated t = true.
Proof. cbn. tauto. Qed.

(** Samples 10 (black) and 15 (white) are in order, yet the black threshold
    15 is above the target 12.5, which is above the white threshold 10. *)
Lemma calibrate_close_samples :
  let t := calibrate init 15 10 in
  10 < 15
  /\ ~ (black_threshold t < target_value t
        /\ target_value t < white_threshold t).
Proof.
  cbn. split; [lra|]. intros [H _]. revert H. unfold Qlt. cbn. lia.
Qed.

(** The thresholds are in order only if the samples are more than twice
    the margin apart. *)
Lemma calibrate_ordered_only_if (self : LineTracer)
  (white_value black_value : Q) :
  let t := calibrate self white_value black_value in
  black_threshold t < target_value t \/ target_value t < white_threshold t ->
  black_value + 10 < white_value.
Proof.
  tracer_simpl. intros [H|H]; halve; lra.
Qed.

(** C4 (amended).  For calibration samples with
    [black_value + 10 < white_value], the profile computed by [calibrate]
    (black threshold = black sample + 5, white threshold = white sample - 5,
    target their midpoint) satisfies
    [black_threshold < target_value < white_threshold]. *)
Theorem calibrate_thresholds_ordered (self : LineTracer)
  (white_value black_value : Q) :
  black_value + 10 < white_value ->
  let t := calibrate self white_value black_value in
  black_threshold t == black_value + 5
  /\ white_threshold t == white_value - 5
  /\ target_value t == (black_threshold t + white_threshold t) / 2
  /\ black_threshold t < target_value t
  /\ target_value t < white_threshold t.
Proof.
  intros H. tracer_simpl. repeat split; try reflexivity; halve; lra.
Qed.

Lemma calibrate_thresholds_ordered_witness :
  let t := calibrate init 90 10 in
  black_threshold t < target_value t /\ target_value t < white_threshold t.
Proof.
  assert (H : 10 + 10 < 90) by lra.
  destruct (calibrate_thresholds_ordered init 90 10 H) as (_ & _ & _ & H1 & H2).
  split; assumption.
Defined.

(** ** C5: the curve classifier *)

(** The classifier of Level 4 has the same shape with a margin of 5. *)
Lemma Level4_detect_sharp_curve_margin (v black white : Q) :
  (v < black + 5 -> Level4.detect_sharp_curve v black white = Some sharp_left)
  /\ (black + 5 <= v -> white - 5 < v ->
      Level4.detect_sharp_curve v black white = Some sharp_right)
  /\ (black + 5 <= v -> v <= white - 5 ->
      Level4.detect_sharp_curve v black white = None).
Proof.
  unfold Level4.detect_sharp_curve.
  repeat split; intros; by_cases; try reflexivity; exfalso; lra.
Qed.



(** ** The control loop: what the search and the counter leave untouched *)

Lemma moved_refl (s : LineTracer) : moved s s.
Proof. exists (line_position s). destruct s; reflexivity. Qed.

Lemma moved_fields (s s' : LineTracer) :
  moved s s' ->
  black_threshold s' = black_threshold s
  /\ white_threshold s' = white_threshold s
  /\ target_value s' = target_value s
  /\ integral s' = integral s
  /\ last_error s' = last_error s
  /\ error_history s' = error_history s
  /\ base_speed s' = base_speed s
  /\ max_turn_rate s' = max_turn_rate s
  /\ gray_zone s' = gray_zone s
  /\ is_calibrated s' = is_calibrated s.
Proof.
  intros [p ->]. destruct s. cbn. tauto.
Qed.

Lemma sweep_effect (pattern : list Z) (self : LineTracer)
  (readings : nat -> Q) (log : list Event) :
  let r := sweep self pattern readings log in
  moved self (snd (fst r))
  /\ exists more,
       snd r = log ++ more /\ Forall (fun e => is_drive e = false) more.
Proof.
  revert readings log.
  induction pattern as [|angle rest IH]; intros readings log; cbn [sweep].
  - split; [apply moved_refl|]. exists [EvStop]. split; [reflexivity|].
    repeat constructor.
  - destruct (readings 0%nat <? target_value self).
    + split; [eexists; reflexivity|].
      exists [EvTurn angle; EvReflection (readings 0%nat)].
      rewrite <- app_assoc. split; [reflexivity|]. repeat constructor.
    + destruct (IH (fun k => readings (S k))
                  ((log ++ [EvTurn angle]) ++ [EvReflection (readings 0%nat)]))
        as (Hm & more & Hlog & Hnd).
      split; [exact Hm|].
      exists (EvTurn angle :: EvReflection (readings 0%nat) :: more).
      split.
      * rewrite Hlog, <- !app_assoc. reflexivity.
      * repeat constructor. exact Hnd.
Qed.

Lemma check_lost_line_effect (st : Loop) (v : Q) (readings : nat -> Q) :
  let r := check_lost_line st v readings in
  moved (tracer st) (tracer (snd r))
  /\ exists more,
       log (snd r) = log st ++ more
       /\ Forall (fun e => is_drive e = false) more.
Proof.
  unfold check_lost_line.
  destruct (white_threshold (tracer st) + 5 <? v).
  - destruct (5 <? S (lost_line_count st))%nat.
    + unfold search_line.
      destruct (sweep_effect (search_pattern (tracer st)) (tracer st)
                  readings (log st)) as (Hm & more & Hlog & Hnd).
      destruct (sweep (tracer st) (search_pattern (tracer st)) readings
                  (log st)) as [[found self'] log'].
      cbn [fst snd] in Hm, Hlog.
      destruct found; cbn [negb snd tracer log]; split; eauto.
    + cbn [snd tracer log]. split; [apply moved_refl|].
      exists []. rewrite app_nil_r. auto.
  - cbn [snd tracer log]. split; [apply moved_refl|].
    exists []. rewrite app_nil_r. auto.
Qed.

Lemma detect_sharp_curve_moved (s s' : LineTracer) (v : Q) :
  moved s s' -> detect_sharp_curve s' v = detect_sharp_curve s v.
Proof.
  intros [p ->]. destruct s. reflexivity.
Qed.

Lemma tick_unfold (st : Loop) (inp : TickInput) :
  button_center inp = false ->
  tick st inp =
  let v := sensor_reading inp in
  let r :=
    check_lost_line
      (mkLoop (tracer st) (lost_line_count st) (log st ++ [EvReflection v]))
      v (search_readings inp) in
  if negb (fst r) then (Some LineLost, snd r)
  else
    match steer (snd r) v with
    | (Some e, st') => (Some (Raised e), st')
    | (None, st') => (None, st')
    end.
Proof.
  intros Hb. unfold tick. rewrite Hb. cbv zeta.
  destruct (check_lost_line _ _ _) as [go st1]. reflexivity.
Qed.

Lemma steer_sharp (st : Loop) (v : Q) (c : Curve) :
  detect_sharp_curve (tracer st) v = Some c ->
  exists turn_rate,
    steer st v =
    (None,
     mkLoop (set_line_position (tracer st) (sharp_position c))
       (lost_line_count st)
       (log st ++ [EvDrive (base_speed (tracer st) * 0.5) turn_rate]))
    /\ turn_rate == sharp_turn c (max_turn_rate (tracer st)).
Proof.
  intros H. unfold steer. rewrite H. destruct c; cbn [sharp_turn sharp_position].
  - eexists. split; [reflexivity|]. ring.
  - eexists. split; [reflexivity|]. ring.
Qed.

Lemma Level4_sweep_effect (target : Q) (angles : list Z)
  (readings : nat -> Q) (log : list Event) :
  exists more,
    snd (Level4.sweep target angles readings log) = log ++ more
    /\ Forall (fun e => is_drive e = false) more.
Proof.
  revert readings log.
  induction angles as [|angle rest IH]; intros readings log;
    cbn [Level4.sweep].
  - exists []. rewrite app_nil_r. auto.
  - destruct (readings 0%nat <? target).
    + exists [EvTurn angle; EvReflection (readings 0%nat)].
      rewrite <- app_assoc. split; [reflexivity|]. repeat constructor.
    + destruct (IH (fun k => readings (S k))
                  ((log ++ [EvTurn angle]) ++ [EvReflection (readings 0%nat)]))
        as (more & Hlog & Hnd).
      exists (EvTurn angle :: EvReflection (readings 0%nat) :: more).
      split.
      * rewrite Hlog, <- !app_assoc. reflexivity.
      * repeat constructor. exact Hnd.
Qed.

Lemma Level4_check_lost_line_effect (cal : Level4.Calibration)
  (g : Level4.Globals) (v : Q) (readings : nat -> Q) :
  let r := Level4.check_lost_line cal g v readings in
  Level4.last_error (snd r) = Level4.last_error g
  /\ exists more,
       Level4.log (snd r) = Level4.log g ++ more
       /\ Forall (fun e => is_drive e = false) more.
Proof.
  unfold Level4.check_lost_line.
  destruct (Level4.WHITE_THRESHOLD cal + 5 <? v).
  - destruct (5 <? S (Level4.lost_line_count g))%nat.
    + unfold Level4.search_line.
      destruct (Level4_sweep_effect (Level4.TARGET_VALUE cal)
                  Level4.search_angles readings (Level4.log g))
        as (more & Hlog & Hnd).
      destruct (Level4.sweep (Level4.TARGET_VALUE cal)
                  Level4.search_angles readings (Level4.log g))
        as [found log'].
      cbn [snd] in Hlog. destruct found; cbn; eauto.
    + cbn. split; [reflexivity|]. exists []. rewrite app_nil_r. auto.
  - cbn. split; [reflexivity|]. exists []. rewrite app_nil_r. auto.
Qed.

(** ** C6: the tick of a sharp curve *)

(** After one PID tick at 60 the integral is 10; the sharp-left tick at 20
    that follows leaves it at 10. *)
Lemma sharp_curve_keeps_integral :
  let st1 := snd (tick on_track (reading 60)) in
  let st2 := snd (tick st1 (reading 20)) in
  detect_sharp_curve (tracer st1) 20 = Some sharp_left
  /\ fst (tick st1 (reading 20)) = None
  /\ integral (tracer st2) == 10
  /\ ~ integral (tracer st2) == 0.
Proof.
  cbv zeta. split; [|split; [|split]].
  - vm_compute. reflexivity.
  - vm_compute. reflexivity.
  - vm_compute. reflexivity.
  - intros H. vm_compute in H. discriminate H.
Qed.

(** C6 (amended).  On every tick of [follow_line] that reaches the curve
    test with a sensor value classified as a sharp curve, [calculate_pid] is
    not run: the error history, [last_error] and the integral of the tracer
    are the ones before the tick; the one drive command of the tick is at
    half the base speed with turn rate [max_turn_rate * 0.8] signed by the
    direction, and [line_position] is set to that direction.  The integral is
    set to 0 in such a tick by the main loop of Level 4 only, whose drive
    command is at half the base speed with turn rate 200, that is
    [max_turn * 0.8], signed by the direction. *)
Theorem sharp_curve_tick :
  (forall (st : Loop) (inp : TickInput) (c : Curve),
     button_center inp = false ->
     detect_sharp_curve (tracer st) (sensor_reading inp) = Some c ->
     fst (tick st inp) <> Some LineLost ->
     let st' := snd (tick st inp) in
     fst (tick st inp) = None
     /\ (exists more speed turn_rate,
           log st' = log st ++ more ++ [EvDrive speed turn_rate]
           /\ Forall (fun e => is_drive e = false) more
           /\ speed == base_speed (tracer st) * 0.5
           /\ turn_rate == sharp_turn c (max_turn_rate (tracer st)))
     /\ error_history (tracer st') = error_history (tracer st)
     /\ last_error (tracer st') = last_error (tracer st)
     /\ integral (tracer st') = integral (tracer st)
     /\ line_position (tracer st') = sharp_position c)
  /\ (forall (cal : Level4.Calibration) (g : Level4.Globals) (v : Q)
        (readings : nat -> Q) (c : Curve),
        Level4.detect_sharp_curve v (Level4.BLACK_THRESHOLD cal)
          (Level4.WHITE_THRESHOLD cal) = Some c ->
        fst (Level4.tick cal g false v readings) = true ->
        let g' := snd (Level4.tick cal g false v readings) in
        Level4.integral g' = 0
        /\ Level4.last_error g' = Level4.last_error g
        /\ exists more turn_rate,
             Level4.log g' =
               Level4.log g ++ more
               ++ [EvDrive (Level4.BASE_SPEED * 0.5) turn_rate]
             /\ Forall (fun e => is_drive e = false) more
             /\ turn_rate == sharp_turn c Level4.max_turn).
Proof.
  split.
  - intros st inp c Hb Hc Hgo st'. subst st'. revert Hgo.
    rewrite (tick_unfold st inp Hb). cbv zeta.
    set (st0 := mkLoop (tracer st) (lost_line_count st)
                  (log st ++ [EvReflection (sensor_reading inp)])).
    destruct (check_lost_line_effect st0 (sensor_reading inp)
                (search_readings inp)) as (Hm & more & Hlog & Hnd).
    destruct (check_lost_line st0 (sensor_reading inp) (search_readings inp))
      as [go st1].
    cbn [fst snd] in *. destruct go; cbn [negb fst snd]; [|congruence].
    intros _.
    change (tracer st0) with (tracer st) in Hm.
    change (log st0) with (log st ++ [EvReflection (sensor_reading inp)])
      in Hlog.
    destruct (steer_sharp st1 (sensor_reading inp) c) as (turn & Hs & Ht).
    { rewrite (detect_sharp_curve_moved (tracer st) (tracer st1)); assumption. }
    rewrite Hs. cbn [fst snd tracer log].
    destruct (moved_fields _ _ Hm)
      as (_ & _ & _ & Hi & Hle & Hh & Hbs & Hmt & _).
    split; [reflexivity|]. split.
    { exists (EvReflection (sensor_reading inp) :: more),
        (base_speed (tracer st1) * 0.5), turn.
      split; [|split; [|split]].
      - rewrite Hlog, <- !app_assoc. reflexivity.
      - constructor; [reflexivity | exact Hnd].
      - rewrite Hbs. reflexivity.
      - rewrite Ht, Hmt. reflexivity. }
    destruct (tracer st1); cbn in *. auto.
  - intros cal g v readings c Hc. unfold Level4.tick.
    set (g0 := Level4.mkGlobals (Level4.integral g) (Level4.last_error g)
                 (Level4.lost_line_count g)
                 (Level4.log g ++ [EvReflection v])).
    destruct (Level4_check_lost_line_effect cal g0 v readings)
      as (Hle & more & Hlog & Hnd).
    destruct (Level4.check_lost_line cal g0 v readings) as [go g1].
    cbn [fst snd] in *.
    destruct go; cbn [negb fst snd]; [|discriminate]. intros _.
    unfold Level4.steer. rewrite Hc.
    destruct c; cbn [Level4.integral Level4.last_error Level4.log];
      (split; [reflexivity|]; split; [exact Hle|]);
      eexists (EvReflection v :: more), _;
      (split; [rewrite Hlog; unfold g0; cbn [Level4.log];
               rewrite <- !app_assoc; reflexivity|]);
      (split; [constructor; [reflexivity | exact Hnd]|]);
      reflexivity.
Qed.

Lemma sharp_curve_tick_witness :
  integral (tracer (snd (tick on_track (reading 20))))
  = integral (tracer on_track)
  /\ Level4.integral
       (snd (Level4.tick (Level4.calibrate 90 10)
               (Level4.mkGlobals 7 3 0 []) false 12 (fun _ => 100)))
     = 0.
Proof.
  destruct sharp_curve_tick as [HP HL]. split.
  - assert (Hb : button_center (reading 20) = false) by reflexivity.
    assert (Hc : detect_sharp_curve (tracer on_track)
                   (sensor_reading (reading 20)) = Some sharp_left)
      by (vm_compute; reflexivity).
    assert (Hgo : fst (tick on_track (reading 20)) <> Some LineLost)
      by (vm_compute; discriminate).
    exact (proj1 (proj2 (proj2 (proj2 (proj2
             (HP on_track (reading 20) sharp_left Hb Hc Hgo)))))).
  - assert (Hc : Level4.detect_sharp_curve 12
                   (Level4.BLACK_THRESHOLD (Level4.calibrate 90 10))
                   (Level4.WHITE_THRESHOLD (Level4.calibrate 90 10))
                 = Some sharp_left) by (vm_compute; reflexivity).
    assert (Hgo : fst (Level4.tick (Level4.calibrate 90 10)
                         (Level4.mkGlobals 7 3 0 []) false 12
                         (fun _ => 100)) = true)
      by (vm_compute; reflexivity).
    exact (proj1 (HL (Level4.calibrate 90 10) (Level4.mkGlobals 7 3 0 [])
                    12 (fun _ => 100) sharp_left Hc Hgo)).
Defined.

(** ** C7: the lost-line counter and the entry into the search *)

Lemma count_events_app (p : Event -> bool) (l m : list Event) :
  count_events p (l ++ m) = (count_events p l + count_events p m)%nat.
Proof.
  unfold count_events. now rewrite filter_app, length_app.
Qed.

Lemma count_turns_no_turn (l : list Event) (e : Event) :
  is_turn e = false ->
  count_events is_turn (l ++ [e]) = count_events is_turn l.
Proof.
  intros He. rewrite count_events_app. unfold count_events at 2.
  cbn [filter]. rewrite He. cbn. lia.
Qed.

Lemma sweep_turns (angle : Z) (rest : list Z) (self : LineTracer)
  (readings : nat -> Q) (log : list Event) :
  (count_events is_turn log
   < count_events is_turn (snd (sweep self (angle :: rest) readings log)))%nat.
Proof.
  cbn [sweep]. destruct (readings 0%nat <? target_value self).
  - cbn [snd]. rewrite !count_events_app. cbn. lia.
  - destruct (sweep_effect rest self (fun k => readings (S k))
                ((log ++ [EvTurn angle]) ++ [EvReflection (readings 0%nat)]))
      as (_ & more & Hlog & _).
    rewrite Hlog, !count_events_app. cbn. lia.
Qed.

Lemma search_pattern_length (self : LineTracer) :
  length (search_pattern self) = 6%nat.
Proof.
  unfold search_pattern. destruct (line_position self <? 0)%Z; reflexivity.
Qed.

Lemma search_line_turns (self : LineTracer) (readings : nat -> Q)
  (log : list Event) :
  (count_events is_turn log
   < count_events is_turn (snd (search_line self readings log)))%nat.
Proof.
  unfold search_line. pose proof (search_pattern_length self) as Hl.
  destruct (search_pattern self) as [|angle rest]; [discriminate|].
  apply sweep_turns.
Qed.

Lemma steer_effect (st : Loop) (v : Q) :
  let r := steer st v in
  lost_line_count (snd r) = lost_line_count st
  /\ turns (snd r) = turns st
  /\ white_threshold (tracer (snd r)) = white_threshold (tracer st).
Proof.
  unfold steer, turns.
  destruct (detect_sharp_curve (tracer st) v) as [[|]|].
  - cbn [snd lost_line_count log tracer].
    rewrite count_turns_no_turn by reflexivity.
    destruct (tracer st); auto.
  - cbn [snd lost_line_count log tracer].
    rewrite count_turns_no_turn by reflexivity.
    destruct (tracer st); auto.
  - destruct (calculate_pid_config (tracer st) v)
      as (_ & _ & _ & _ & _ & _ & _ & Hw & _).
    cbv zeta in Hw.
    destruct (calculate_pid (tracer st) v) as [turn_rate self'].
    cbn [snd] in Hw.
    destruct (Qeq_bool (max_turn_rate self') 0).
    + cbn [snd lost_line_count log tracer]. auto.
    + destruct (gray_zone self');
        cbn [snd lost_line_count log tracer];
        rewrite count_turns_no_turn by reflexivity.
      * rewrite <- Hw. destruct self'; auto.
      * auto.
Qed.

Lemma lost_reading_is_sharp (self : LineTracer) (v : Q) :
  white_threshold self + 5 < v ->
  exists c, detect_sharp_curve self v = Some c.
Proof.
  intros H. unfold detect_sharp_curve.
  destruct (v <? black_threshold self + 10); [eauto|].
  destruct (white_threshold self - 10 <? v) eqn:E; [eauto|].
  apply Qltb_ge in E. lra.
Qed.

Lemma steer_lost_reading (st : Loop) (v : Q) :
  white_threshold (tracer st) + 5 < v -> fst (steer st v) = None.
Proof.
  intros H. destruct (lost_reading_is_sharp (tracer st) v H) as [c Hc].
  destruct (steer_sharp st v c Hc) as (turn & Hs & _). now rewrite Hs.
Qed.

Lemma steer_exit (st : Loop) (v : Q) :
  fst (match steer st v with
       | (Some e, st') => (Some (Raised e), st')
       | (None, st') => (None, st')
       end) <> Some LineLost
  /\ snd (match steer st v with
          | (Some e, st') => (Some (Raised e), st')
          | (None, st') => (None, st')
          end) = snd (steer st v)
  /\ (fst (steer st v) = None ->
      fst (match steer st v with
           | (Some e, st') => (Some (Raised e), st')
           | (None, st') => (None, st')
           end) = None).
Proof.
  destruct (steer st v) as [[e|] st']; cbn; repeat split; congruence.
Qed.

(** The three cases of a tick that goes past the button test. *)
Lemma tick_cases (st : Loop) (inp : TickInput) :
  button_center inp = false ->
  let st' := snd (tick st inp) in
  let white := white_threshold (tracer st) in
  let v := sensor_reading inp in
  white_threshold (tracer st') = white
  /\ ((v <= white + 5
       /\ lost_line_count st' = 0%nat
       /\ turns st' = turns st
       /\ fst (tick st inp) <> Some LineLost)
      \/ (white + 5 < v
          /\ (lost_line_count st < 5)%nat
          /\ lost_line_count st' = S (lost_line_count st)
          /\ turns st' = turns st
          /\ fst (tick st inp) = None)
      \/ (white + 5 < v
          /\ (5 <= lost_line_count st)%nat
          /\ (turns st < turns st')%nat
          /\ ((fst (tick st inp) = Some LineLost
               /\ lost_line_count st' = S (lost_line_count st))
              \/ (fst (tick st inp) = None
                  /\ lost_line_count st' = 0%nat)))).
Proof.
  intros Hb st' white v. subst st'.
  rewrite (tick_unfold st inp Hb). cbv zeta. fold v.
  set (st0 := mkLoop (tracer st) (lost_line_count st)
                (log st ++ [EvReflection v])).
  assert (Ht0 : turns st0 = turns st)
    by (unfold turns, st0; cbn [log]; now apply count_turns_no_turn).
  unfold check_lost_line. change (tracer st0) with (tracer st). fold white.
  change (lost_line_count st0) with (lost_line_count st).
  destruct (white + 5 <? v) eqn:Ev;
    [apply Qltb_lt in Ev | apply Qltb_ge in Ev].
  - destruct (5 <? S (lost_line_count st))%nat eqn:En;
      [apply Nat.ltb_lt in En | apply Nat.ltb_ge in En].
    + pose proof (search_line_turns (tracer st) (search_readings inp)
                    (log st0)) as Hturns.
      unfold search_line in *.
      destruct (sweep_effect (search_pattern (tracer st)) (tracer st)
                  (search_readings inp) (log st0)) as (Hm & _).
      destruct (sweep (tracer st) (search_pattern (tracer st))
                  (search_readings inp) (log st0)) as [[found self'] log'].
      cbn [fst snd] in Hm, Hturns.
      destruct (moved_fields _ _ Hm) as (_ & Hw & _).
      fold (turns st0) in Hturns. rewrite Ht0 in Hturns.
      destruct found; cbn [negb fst snd].
      * set (st1 := mkLoop self' 0 log').
        destruct (steer_effect st1 v) as (Hl & Htn & Hws).
        destruct (steer_exit st1 v) as (_ & Hsnd & Hnone).
        cbv zeta in Hl, Htn, Hws. rewrite Hsnd, Hws.
        split; [exact Hw|]. right. right.
        split; [exact Ev|]. split; [lia|]. split.
        { rewrite Htn. exact Hturns. }
        right. split; [|rewrite Hl; reflexivity].
        apply Hnone, steer_lost_reading.
        change (tracer st1) with self'. rewrite Hw. exact Ev.
      * cbn [tracer]. split; [exact Hw|]. right. right.
        split; [exact Ev|]. split; [lia|]. split; [exact Hturns|].
        left. split; reflexivity.
    + cbn [negb fst snd].
      set (st1 := mkLoop (tracer st) (S (lost_line_count st)) (log st0)).
      destruct (steer_effect st1 v) as (Hl & Htn & Hws).
      destruct (steer_exit st1 v) as (_ & Hsnd & Hnone).
      cbv zeta in Hl, Htn, Hws. rewrite Hsnd, Hws.
      split; [reflexivity|]. right. left.
      split; [exact Ev|]. split; [lia|]. split; [exact Hl|].
      split; [rewrite Htn; exact Ht0|].
      apply Hnone, steer_lost_reading. exact Ev.
  - cbn [negb fst snd].
    set (st1 := mkLoop (tracer st) 0 (log st0)).
    destruct (steer_effect st1 v) as (Hl & Htn & Hws).
    destruct (steer_exit st1 v) as (Hne & Hsnd & _).
    cbv zeta in Hl, Htn, Hws. rewrite Hsnd, Hws.
    split; [reflexivity|]. left.
    split; [exact Ev|]. split; [exact Hl|].
    split; [rewrite Htn; exact Ht0 | exact Hne].
Qed.

Lemma tick_running_button (st st' : Loop) (inp : TickInput) :
  tick st inp = (None, st') -> button_center inp = false.
Proof.
  unfold tick. destruct (button_center inp); [discriminate | reflexivity].
Qed.

Lemma tick_counter_inv (white : Q) (hist : list TickInput) (st st' : Loop)
  (inp : TickInput) :
  counter_inv white hist st ->
  tick st inp = (None, st') ->
  counter_inv white (hist ++ [inp]) st'.
Proof.
  intros (Hw & Hle & before & recent & Hh & Hlen & Hall) Ht.
  pose proof (tick_running_button _ _ _ Ht) as Hb.
  destruct (tick_cases st inp Hb) as (Hw' & Hcases).
  rewrite Ht in *. cbn [fst snd] in *. rewrite Hw in *.
  split; [exact Hw'|].
  destruct Hcases as [(_ & H0 & _) | [(Hv & Hlt & HS & _) | (_ & _ & _ & H)]].
  - rewrite H0. split; [lia|]. exists (hist ++ [inp]), [].
    rewrite app_nil_r. auto.
  - rewrite HS. split; [lia|]. exists before, (recent ++ [inp]).
    split; [rewrite Hh, app_assoc; reflexivity|].
    split; [rewrite length_app; cbn; lia|].
    apply Forall_app. split; [exact Hall|].
    constructor; [split; assumption | constructor].
  - destruct H as [[H _] | [_ H0]]; [discriminate|].
    rewrite H0. split; [lia|]. exists (hist ++ [inp]), [].
    rewrite app_nil_r. auto.
Qed.

Lemma follow_loop_counter_inv (white : Q) (inputs hist : list TickInput)
  (st st' : Loop) :
  counter_inv white hist st ->
  follow_loop st inputs = (None, st') ->
  counter_inv white (hist ++ inputs) st'.
Proof.
  revert hist st. induction inputs as [|inp rest IH]; intros hist st Hinv Hrun.
  - cbn in Hrun. injection Hrun as <-. now rewrite app_nil_r.
  - cbn [follow_loop] in Hrun.
    destruct (tick st inp) as [[exit|] st1] eqn:Ht; [discriminate|].
    replace (hist ++ inp :: rest) with ((hist ++ [inp]) ++ rest)
      by (rewrite <- app_assoc; reflexivity).
    apply (IH _ st1); [|exact Hrun].
    apply (tick_counter_inv white hist st); assumption.
Qed.

Lemma enters_search_inv (st : Loop) (inp : TickInput) :
  enters_search st inp ->
  button_center inp = false
  /\ white_threshold (tracer st) + 5 < sensor_reading inp
  /\ (5 <= lost_line_count st)%nat.
Proof.
  unfold enters_search. intros H.
  destruct (button_center inp) eqn:Hb.
  - unfold tick in H. rewrite Hb in H. cbn [snd] in H. lia.
  - destruct (tick_cases st inp Hb) as (_ & Hcases). cbv zeta in Hcases.
    destruct Hcases as [(_ & _ & Ht & _) | [(_ & _ & _ & Ht & _) | H3]].
    + lia.
    + lia.
    + tauto.
Qed.

(** Five ticks, each lost, from a counter at 0: the loop is still running,
    no search was entered, the counter is at 5. *)
Lemma five_lost_ticks (white : Q) (inputs : list TickInput) (st : Loop) :
  white_threshold (tracer st) = white ->
  Forall (lost_tick white) inputs ->
  (lost_line_count st + length inputs <= 5)%nat ->
  exists st',
    follow_loop st inputs = (None, st')
    /\ white_threshold (tracer st') = white
    /\ lost_line_count st' = (lost_line_count st + length inputs)%nat
    /\ turns st' = turns st.
Proof.
  revert st. induction inputs as [|inp rest IH]; intros st Hw Hall Hlen.
  - exists st. cbn. rewrite Nat.add_0_r. auto.
  - inversion Hall as [|? ? [Hb Hv] Hrest]; subst.
    cbn [length] in Hlen.
    destruct (tick_cases st inp Hb) as (Hw' & Hcases). cbv zeta in Hcases.
    destruct Hcases as [(Hle & _) | [(_ & _ & HS & Ht & Hn) | (_ & H5 & _)]].
    + lra.
    + cbn [follow_loop].
      destruct (tick st inp) as [exit st1]. cbn [fst snd] in *. subst exit.
      destruct (IH st1) as (st' & Hrun & Hws & Hl & Htn);
        [assumption | assumption | lia |].
      exists st'. split; [exact Hrun|]. split; [exact Hws|].
      split; [rewrite Hl, HS; cbn [length]; lia | congruence].
    + lia.
Qed.

(** C7.  In a tick that goes past the button test: a reading not above
    [white_threshold + 5] resets [lost_line_count] to 0 and enters no
    search; a reading above it with the counter below 5 increments the
    counter by one and enters no search; a reading above it with the counter
    at 5 or more, the incremented counter then exceeding 5, enters the
    search, after which the loop is left with the incremented counter
    (search failed) or goes on with the counter at 0.  The search is entered
    in exactly these ticks.  In a run of the loop from a counter at 0, a
    tick that enters the search is lost and so are the 5 ticks before it;
    and 6 lost ticks in a row from a counter at 0 enter the search in the
    6th tick and not before. *)
Theorem lost_line_counter :
  (forall (st : Loop) (inp : TickInput),
     button_center inp = false ->
     let st' := snd (tick st inp) in
     let white := white_threshold (tracer st) in
     let v := sensor_reading inp in
     (v <= white + 5 ->
      lost_line_count st' = 0%nat /\ ~ enters_search st inp)
     /\ (white + 5 < v -> (lost_line_count st < 5)%nat ->
         lost_line_count st' = S (lost_line_count st)
         /\ ~ enters_search st inp)
     /\ (white + 5 < v -> (5 <= lost_line_count st)%nat ->
         enters_search st inp
         /\ ((fst (tick st inp) = Some LineLost
              /\ lost_line_count st' = S (lost_line_count st))
             \/ (fst (tick st inp) = None
                 /\ lost_line_count st' = 0%nat))))
  /\ (forall (st : Loop) (inp : TickInput),
        enters_search st inp
        <-> button_center inp = false
            /\ white_threshold (tracer st) + 5 < sensor_reading inp
            /\ (5 < S (lost_line_count st))%nat)
  /\ (forall (st0 st : Loop) (before : list TickInput) (inp : TickInput),
        lost_line_count st0 = 0%nat ->
        follow_loop st0 before = (None, st) ->
        enters_search st inp ->
        exists earlier recent,
          before = earlier ++ recent
          /\ length recent = 5%nat
          /\ Forall (lost_tick (white_threshold (tracer st0)))
               (recent ++ [inp]))
  /\ (forall (st0 : Loop) (five : list TickInput) (sixth : TickInput),
        lost_line_count st0 = 0%nat ->
        length five = 5%nat ->
        Forall (lost_tick (white_threshold (tracer st0))) (five ++ [sixth]) ->
        exists st5,
          follow_loop st0 five = (None, st5)
          /\ lost_line_count st5 = 5%nat
          /\ turns st5 = turns st0
          /\ enters_search st5 sixth).
Proof.
  assert (Hcase3 : forall st inp,
            button_center inp = false ->
            white_threshold (tracer st) + 5 < sensor_reading inp ->
            (5 <= lost_line_count st)%nat ->
            enters_search st inp
            /\ ((fst (tick st inp) = Some LineLost
                 /\ lost_line_count (snd (tick st inp))
                    = S (lost_line_count st))
                \/ (fst (tick st inp) = None
                    /\ lost_line_count (snd (tick st inp)) = 0%nat))).
  { intros st inp Hb Hv H5.
    destruct (tick_cases st inp Hb) as (_ & Hcases). cbv zeta in Hcases.
    destruct Hcases as [(Hle & _) | [(_ & Hlt & _) | (_ & _ & Ht & H)]];
      [lra | lia | split; assumption]. }
  split; [|split; [|split]].
  - intros st inp Hb st' white v. subst st' white v.
    destruct (tick_cases st inp Hb) as (_ & Hcases). cbv zeta in Hcases.
    unfold enters_search. split; [|split].
    + intros Hv.
      destruct Hcases as [(_ & H0 & Ht & _) | [(Hlt & _) | (Hlt & _)]];
        [split; lia | lra | lra].
    + intros Hv Hl.
      destruct Hcases as [(Hle & _) | [(_ & _ & HS & Ht & _) | (_ & H5 & _)]];
        [lra | split; lia | lia].
    + intros Hv H5. apply Hcase3; assumption.
  - intros st inp. split.
    + intros H. destruct (enters_search_inv st inp H) as (Hb & Hv & H5).
      repeat split; try assumption. lia.
    + intros (Hb & Hv & H5). apply Hcase3; [assumption | assumption | lia].
  - intros st0 st before inp H0 Hrun Hs.
    destruct (enters_search_inv st inp Hs) as (Hb & Hv & H5).
    assert (Hinv : counter_inv (white_threshold (tracer st0)) [] st0).
    { split; [reflexivity|]. split; [lia|]. exists [], [].
      rewrite H0. auto. }
    destruct (follow_loop_counter_inv _ before [] st0 st Hinv Hrun)
      as (Hw & Hle & earlier & recent & Hh & Hlen & Hall).
    cbn [app] in Hh. exists earlier, recent.
    split; [exact Hh|]. split; [lia|].
    apply Forall_app. split; [exact Hall|].
    constructor; [|constructor]. split; [exact Hb|]. rewrite <- Hw. exact Hv.
  - intros st0 five sixth H0 Hlen Hall.
    apply Forall_app in Hall. destruct Hall as [Hfive Hsixth].
    inversion Hsixth as [|? ? [Hb Hv] _]; subst.
    destruct (five_lost_ticks (white_threshold (tracer st0)) five st0)
      as (st5 & Hrun & Hw & Hl & Ht); [reflexivity | assumption | lia |].
    exists st5. split; [exact Hrun|]. split; [lia|]. split; [exact Ht|].
    apply Hcase3; [exact Hb | rewrite Hw; exact Hv | lia].
Qed.

Lemma lost_line_counter_witness :
  exists st5,
    follow_loop on_track (repeat (reading 95) 5) = (None, st5)
    /\ lost_line_count st5 = 5%nat
    /\ enters_search st5 (reading 95).
Proof.
  destruct lost_line_counter as (_ & _ & _ & HC).
  destruct (HC on_track (repeat (reading 95) 5) (reading 95))
    as (st5 & H1 & H2 & _ & H4).
  - reflexivity.
  - reflexivity.
  - repeat (constructor; [split; [reflexivity | vm_compute; reflexivity]|]).
    constructor.
  - exists st5. auto.
Defined.

(** ** C8: a search that never finds the line *)

Lemma sweep_log_counts (pattern : list Z) (readings : nat -> Q) :
  count_events is_turn (sweep_log pattern readings) = length pattern
  /\ count_events is_reflection (sweep_log pattern readings) = length pattern
  /\ count_events is_stop (sweep_log pattern readings) = 0%nat
  /\ length (sweep_log pattern readings) = (2 * length pattern)%nat.
Proof.
  revert readings. induction pattern as [|angle rest IH]; intros readings.
  - cbn. auto.
  - destruct (IH (fun k => readings (S k))) as (H1 & H2 & H3 & H4).
    unfold count_events in *. cbn [sweep_log filter is_turn is_reflection
      is_stop length]. rewrite H1, H2, H3, H4. repeat split; lia.
Qed.


Lemma follow_loop_app (st st' : Loop) (before after : list TickInput) :
  follow_loop st before = (None, st') ->
  follow_loop st (before ++ after) = follow_loop st' after.
Proof.
  revert st. induction before as [|inp rest IH]; intros st Hrun.
  - cbn in Hrun. injection Hrun as ->. reflexivity.
  - cbn [follow_loop app] in *.
    destruct (tick st inp) as [[exit|] st1]; [discriminate|].
    apply IH, Hrun.
Qed.

Lemma follow_line_start (self : LineTracer) (white_value black_value : Q)
  (inputs : list TickInput) :
  follow_line self white_value black_value inputs =
  match follow_loop (start self white_value black_value) inputs with
  | (Some LineLost, st) =>
      (Some LineLost,
       mkLoop (tracer st) (lost_line_count st) (log st ++ [EvStop]))
  | (Some ButtonStop, st) =>
      (Some ButtonStop,
       mkLoop (tracer st) (lost_line_count st) (log st ++ [EvStop]))
  | other => other
  end.
Proof.
  unfold follow_line, start.
  destruct (follow_loop _ inputs) as [[[| |e]|] st]; reflexivity.
Qed.


Lemma after_five_running :
  follow_loop (start init 90 10) (repeat (reading 95) 5) = (None, after_five).
Proof. vm_compute. reflexivity. Qed.


(** The search of Level 4 sweeps 5 angles and commands no stop itself. *)
Lemma Level4_failed_search (target : Q) (readings : nat -> Q)
  (log : list Event) :
  (forall k, (k < 5)%nat -> target <= readings k) ->
  Level4.search_line target readings log
  = (false, log ++ sweep_log Level4.search_angles readings).
Proof.
  intros Hnever. unfold Level4.search_line, Level4.search_angles.
  cbn [Level4.sweep sweep_log].
  repeat match goal with
  | |- context [Qltb (readings ?k) target] =>
      let E := fresh "E" in
      assert (E : Qltb (readings k) target = false)
        by (apply Qltb_ge, Hnever; lia);
      rewrite E; clear E
  end.
  rewrite <- !app_assoc. reflexivity.
Qed.

(** ** C9: the speed of a PID tick *)

Lemma speed_factor_bounds (base turn_rate max : Q) :
  0 < max -> 0 <= base -> Qabs turn_rate <= max ->
  0.6 * base <= base * (1 - (Qabs turn_rate / max) * 0.4)
  /\ base * (1 - (Qabs turn_rate / max) * 0.4) <= base.
Proof.
  intros Hmax Hbase Hturn.
  assert (H0 : 0 <= Qabs turn_rate / max).
  { apply Qle_shift_div_l; [exact Hmax|]. rewrite Qmult_0_l.
    apply Qabs_nonneg. }
  assert (H1 : Qabs turn_rate / max <= 1).
  { apply Qle_shift_div_r; [exact Hmax|]. rewrite Qmult_1_l. exact Hturn. }
  revert H0 H1. generalize (Qabs turn_rate / max) as r. intros r H0 H1.
  split; nra.
Qed.

(** The speed law of Level 4 is a different one: the base speed less 0.8
    times the absolute error, and at least 50. *)
Lemma Level4_adjust_speed_spec (base error : Q) :
  Level4.adjust_speed base error == Qmax 50 (base - Qabs error * 0.8).
Proof.
  unfold Level4.adjust_speed.
  destruct (Q.max_spec 50 (base - Qabs error * 0.8)) as [[H1 H2]|[H1 H2]];
    rewrite H2; by_cases; lra.
Qed.



(** ** C10: the gray zone is defined when it is read *)

Lemma same_setup_trans (a b c : LineTracer) :
  same_setup a b -> same_setup b c -> same_setup a c.
Proof.
  unfold same_setup. intros (H1 & H2 & H3) (K1 & K2 & K3).
  repeat split; congruence.
Qed.

Lemma moved_same_setup (s s' : LineTracer) : moved s s' -> same_setup s s'.
Proof.
  intros H. destruct (moved_fields s s' H) as (_ & _ & _ & _ & _ & _ & _ & H1 & H2 & H3).
  repeat split; assumption.
Qed.

Lemma steer_setup (st : Loop) (v : Q) :
  let r := steer st v in
  same_setup (tracer st) (tracer (snd r))
  /\ (fst r = Some AttributeError -> gray_zone (tracer st) = None)
  /\ (fst r = Some ZeroDivisionError -> max_turn_rate (tracer st) == 0).
Proof.
  unfold steer.
  destruct (detect_sharp_curve (tracer st) v) as [[|]|].
  - cbn [fst snd tracer]. split; [|split; discriminate].
    apply moved_same_setup. eexists; reflexivity.
  - cbn [fst snd tracer]. split; [|split; discriminate].
    apply moved_same_setup. eexists; reflexivity.
  - destruct (calculate_pid_config (tracer st) v)
      as (_ & _ & _ & Hm & Hg & Hc & _).
    cbv zeta in Hm, Hg, Hc.
    destruct (calculate_pid (tracer st) v) as [turn_rate self'].
    cbn [snd] in Hm, Hg, Hc.
    assert (Hsame : same_setup (tracer st) self')
      by (repeat split; assumption).
    destruct (Qeq_bool (max_turn_rate self') 0) eqn:Ez.
    + cbn [fst snd tracer]. split; [exact Hsame|].
      split; [discriminate|]. intros _.
      apply Qeq_bool_eq in Ez. rewrite <- Hm. exact Ez.
    + destruct (gray_zone self') eqn:Eg; cbn [fst snd tracer].
      * split; [|split; discriminate].
        apply (same_setup_trans _ self'); [exact Hsame|].
        apply moved_same_setup. eexists; reflexivity.
      * split; [exact Hsame|]. split; [congruence | discriminate].
Qed.

Lemma tick_setup (st : Loop) (inp : TickInput) :
  let r := tick st inp in
  same_setup (tracer st) (tracer (snd r))
  /\ (fst r = Some (Raised AttributeError) -> gray_zone (tracer st) = None)
  /\ (fst r = Some (Raised ZeroDivisionError) ->
      max_turn_rate (tracer st) == 0).
Proof.
  destruct (button_center inp) eqn:Hb.
  - unfold tick. rewrite Hb. cbn [fst snd].
    split; [repeat split | split; discriminate].
  - rewrite (tick_unfold st inp Hb). cbv zeta.
    set (st0 := mkLoop (tracer st) (lost_line_count st)
                  (log st ++ [EvReflection (sensor_reading inp)])).
    destruct (check_lost_line_effect st0 (sensor_reading inp)
                (search_readings inp)) as (Hm & _).
    destruct (check_lost_line st0 (sensor_reading inp) (search_readings inp))
      as [go st1].
    cbn [fst snd] in *. change (tracer st0) with (tracer st) in Hm.
    apply moved_same_setup in Hm.
    destruct go; cbn [negb fst snd]; [|split; [exact Hm | split; discriminate]].
    destruct (steer_setup st1 (sensor_reading inp)) as (Hs & Ha & Hz).
    pose proof Hm as (H1 & H2 & H3).
    destruct (steer st1 (sensor_reading inp)) as [[e|] st2];
      cbn [fst snd] in *.
    + split; [exact (same_setup_trans _ _ _ Hm Hs)|].
      split; intros He; injection He as ->.
      * rewrite <- H1. apply Ha. reflexivity.
      * rewrite <- H2. apply Hz. reflexivity.
    + split; [exact (same_setup_trans _ _ _ Hm Hs)|].
      split; discriminate.
Qed.

Lemma follow_loop_setup (inputs : list TickInput) (st : Loop) :
  let r := follow_loop st inputs in
  same_setup (tracer st) (tracer (snd r))
  /\ (fst r = Some (Raised AttributeError) -> gray_zone (tracer st) = None)
  /\ (fst r = Some (Raised ZeroDivisionError) ->
      max_turn_rate (tracer st) == 0).
Proof.
  revert st. induction inputs as [|inp rest IH]; intros st.
  - cbn. split; [repeat split | split; discriminate].
  - cbn [follow_loop]. destruct (tick_setup st inp) as (Hs & Ha & Hz).
    destruct (tick st inp) as [[exit|] st1]; cbn [fst snd] in *.
    + auto.
    + destruct (IH st1) as (Hs' & Ha' & Hz'). cbv zeta in Hs', Ha', Hz'.
      pose proof Hs as (H1 & H2 & H3).
      split; [exact (same_setup_trans _ _ _ Hs Hs')|].
      split; intros He.
      * rewrite <- H1. apply Ha', He.
      * rewrite <- H2. apply Hz', He.
Qed.

Lemma advanced_settings_setup (polls : list (list Button)) (s : LineTracer) :
  same_setup s (advanced_settings s polls).
Proof.
  revert s. induction polls as [|buttons rest IH]; intros s.
  - repeat split.
  - cbn [advanced_settings].
    repeat match goal with
    | |- context [if pressed ?b buttons then _ else _] =>
        destruct (pressed b buttons)
    end;
    try (eapply same_setup_trans; [|apply IH]);
    try (destruct (_ <? _));
    destruct s; repeat split.
Qed.

Lemma follow_line_exit (self : LineTracer) (white_value black_value : Q)
  (inputs : list TickInput) :
  fst (follow_line self white_value black_value inputs)
  = fst (follow_loop (start self white_value black_value) inputs)
  /\ tracer (snd (follow_line self white_value black_value inputs))
     = tracer (snd (follow_loop (start self white_value black_value) inputs)).
Proof.
  rewrite follow_line_start.
  destruct (follow_loop _ inputs) as [[[| |e]|] st]; split; reflexivity.
Qed.

Lemma same_setup_ready (s s' : LineTracer) :
  same_setup s s' -> ready s -> ready s'.
Proof.
  intros (H1 & H2 & H3) (Hg & Hm). split; [|congruence].
  intros Hc. rewrite H1. apply Hg. congruence.
Qed.

Lemma calibrate_ready (s : LineTracer) (white_value black_value : Q) :
  max_turn_rate s = 250 ->
  ready (calibrate s white_value black_value)
  /\ gray_zone (calibrate s white_value black_value) <> None.
Proof.
  intros Hm. split; [split|]; cbn; try discriminate. exact Hm.
Qed.

Lemma start_ready (s : LineTracer) (white_value black_value : Q) :
  ready s ->
  ready (tracer (start s white_value black_value))
  /\ gray_zone (tracer (start s white_value black_value)) <> None.
Proof.
  intros [Hg Hm]. unfold start. cbn [tracer].
  destruct (is_calibrated s) eqn:Ec; cbn [negb].
  - split; [split|]; auto.
  - apply calibrate_ready, Hm.
Qed.

Lemma reachable_ready (s : LineTracer) : reachable s -> ready s.
Proof.
  induction 1 as [|s w b _ [_ Hm]|s polls _ IH|s w b inputs _ IH].
  - split; [discriminate | reflexivity].
  - apply calibrate_ready, Hm.
  - apply (same_setup_ready s); [apply advanced_settings_setup | exact IH].
  - destruct (follow_line_exit s w b inputs) as [_ ->].
    destruct (follow_loop_setup inputs (start s w b)) as (Hs & _).
    apply (same_setup_ready _ _ Hs), start_ready, IH.
Qed.

Lemma follow_line_running (self : LineTracer) (white_value black_value : Q)
  (inputs : list TickInput) :
  fst (follow_line self white_value black_value inputs) = None ->
  follow_loop (start self white_value black_value) inputs
  = (None, snd (follow_line self white_value black_value inputs)).
Proof.
  rewrite follow_line_start.
  destruct (follow_loop (start self white_value black_value) inputs)
    as [[[| |e]|] st]; cbn [fst snd]; intros H; try discriminate H.
  reflexivity.
Qed.

Lemma follow_line_setup (self : LineTracer) (white_value black_value : Q)
  (inputs : list TickInput) :
  same_setup (tracer (start self white_value black_value))
    (tracer (snd (follow_line self white_value black_value inputs))).
Proof.
  destruct (follow_line_exit self white_value black_value inputs) as [_ ->].
  apply (follow_loop_setup inputs (start self white_value black_value)).
Qed.

(** A tick of the PID branch on a tracer with a gray zone and a maximum
    turn rate that is not 0. *)
Lemma pid_tick_position (st : Loop) (inp : TickInput) (gray : Q) :
  gray_zone (tracer st) = Some gray ->
  ~ max_turn_rate (tracer st) == 0 ->
  button_center inp = false ->
  detect_sharp_curve (tracer st) (sensor_reading inp) = None ->
  exists st',
    tick st inp = (None, st')
    /\ line_position (tracer st')
       = (if Qabs (sensor_reading inp - target_value (tracer st)) <? gray
          then 0%Z
          else if sensor_reading inp <? target_value (tracer st)
               then (-1)%Z else 1%Z).
Proof.
  intros Hgray Hmax Hb Hc. set (v := sensor_reading inp) in *.
  assert (Hv : (white_threshold (tracer st) + 5 <? v) = false).
  { apply Qltb_ge. revert Hc. unfold detect_sharp_curve.
    destruct (v <? black_threshold (tracer st) + 10); [discriminate|].
    destruct (white_threshold (tracer st) - 10 <? v) eqn:E; [discriminate|].
    apply Qltb_ge in E. intros _. lra. }
  rewrite (tick_unfold st inp Hb). cbv zeta. fold v.
  unfold check_lost_line. cbn [tracer lost_line_count log].
  rewrite Hv. cbn [negb fst snd]. unfold steer.
  cbn [tracer lost_line_count log]. rewrite Hc.
  destruct (calculate_pid_config (tracer st) v)
    as (Kt & _ & _ & Km & Kg & _).
  cbv zeta in Kt, Km, Kg.
  destruct (calculate_pid (tracer st) v) as [turn_rate self'].
  cbn [snd] in Kt, Km, Kg.
  assert (Hz : Qeq_bool (max_turn_rate self') 0 = false).
  { destruct (Qeq_bool (max_turn_rate self') 0) eqn:E; [|reflexivity].
    apply Qeq_bool_eq in E. rewrite Km in E. contradiction. }
  rewrite Hz, Kg, Hgray, Kt.
  eexists. split; [reflexivity|]. cbn [tracer].
  destruct self'. reflexivity.
Qed.

(** C10.  [follow_line] called on a tracer that is not calibrated runs
    [calibrate] before its loop: the run is the run of [follow_line] on the
    calibrated tracer, and the tracer it leaves is marked calibrated with
    the gray zone computed from the two samples.  For such a tracer, and
    for every tracer the program can hold, the tracer has a gray zone after
    any number of ticks of [follow_line]; a tick of the PID branch that
    follows (the maximum turn rate not being 0) finds it, sets
    [line_position] by the gray-zone test and leaves the loop running; and
    no run of [follow_line] ends with the exception of a missing attribute.
    For the tracers the program can hold no run ends with an exception at
    all. *)
Theorem follow_line_gray_zone (self : LineTracer) (white_value black_value : Q)
  (inputs : list TickInput) :
  is_calibrated self = false \/ reachable self ->
  (is_calibrated self = false ->
   (forall w b : Q,
      follow_line self white_value black_value inputs
      = follow_line (calibrate self white_value black_value) w b inputs)
   /\ is_calibrated
        (tracer (snd (follow_line self white_value black_value inputs)))
      = true
   /\ gray_zone
        (tracer (snd (follow_line self white_value black_value inputs)))
      = Some ((white_value - 5 - (black_value + 5)) * 0.3))
  /\ (forall before : list TickInput,
        gray_zone
          (tracer (snd (follow_line self white_value black_value before)))
        <> None)
  /\ (forall (before : list TickInput) (inp : TickInput),
        let st := snd (follow_line self white_value black_value before) in
        let v := sensor_reading inp in
        fst (follow_line self white_value black_value before) = None ->
        button_center inp = false ->
        detect_sharp_curve (tracer st) v = None ->
        ~ max_turn_rate self == 0 ->
        exists gray,
          gray_zone (tracer st) = Some gray
          /\ fst (follow_line self white_value black_value (before ++ [inp]))
             = None
          /\ line_position
               (tracer (snd (follow_line self white_value black_value
                               (before ++ [inp]))))
             = (if Qabs (v - target_value (tracer st)) <? gray then 0%Z
                else if v <? target_value (tracer st) then (-1)%Z else 1%Z))
  /\ fst (follow_line self white_value black_value inputs)
     <> Some (Raised AttributeError)
  /\ (reachable self ->
      forall e : Exn,
        fst (follow_line self white_value black_value inputs)
        <> Some (Raised e)).
Proof.
  intros Hself.
  assert (Hstart : gray_zone (tracer (start self white_value black_value))
                   <> None).
  { destruct Hself as [Hc | Hr].
    - unfold start. rewrite Hc. cbn. discriminate.
    - apply start_ready, reachable_ready, Hr. }
  assert (Hmax : max_turn_rate (tracer (start self white_value black_value))
                 = max_turn_rate self).
  { unfold start. cbn [tracer]. destruct (is_calibrated self); reflexivity. }
  assert (Hzone : forall before,
            gray_zone
              (tracer (snd (follow_line self white_value black_value before)))
            <> None).
  { intros before.
    destruct (follow_line_setup self white_value black_value before)
      as (Hg & _).
    rewrite Hg. exact Hstart. }
  assert (Hattr : fst (follow_line self white_value black_value inputs)
                  <> Some (Raised AttributeError)).
  { destruct (follow_line_exit self white_value black_value inputs) as [-> _].
    destruct (follow_loop_setup inputs (start self white_value black_value))
      as (_ & Ha & _).
    intros He. apply Hstart, Ha, He. }
  split; [|split; [|split; [|split]]].
  - intros Hc.
    destruct (follow_line_setup self white_value black_value inputs)
      as (Hg & _ & Hi).
    unfold start in Hg, Hi. cbn [tracer] in Hg, Hi. rewrite Hc in Hg, Hi.
    split; [|split; assumption].
    intros w b. unfold follow_line. rewrite Hc. reflexivity.
  - exact Hzone.
  - intros before inp st v Hrun Hb Hdet Hnz. subst st v.
    pose proof (follow_line_running _ _ _ _ Hrun) as Hloop.
    set (st := snd (follow_line self white_value black_value before)) in *.
    destruct (gray_zone (tracer st)) as [gray|] eqn:Hgray;
      [|exfalso; exact (Hzone before Hgray)].
    assert (Hnz' : ~ max_turn_rate (tracer st) == 0).
    { destruct (follow_line_setup self white_value black_value before)
        as (_ & Hm & _).
      fold st in Hm. rewrite Hm, Hmax. exact Hnz. }
    destruct (pid_tick_position st inp gray Hgray Hnz' Hb Hdet)
      as (st' & Htick & Hpos).
    exists gray. split; [reflexivity|].
    rewrite follow_line_start, (follow_loop_app _ st) by exact Hloop.
    cbn [follow_loop]. rewrite Htick. cbn [fst snd].
    split; [reflexivity | exact Hpos].
  - exact Hattr.
  - intros Hr [|] He; [exact (Hattr He)|].
    destruct (follow_line_exit self white_value black_value inputs)
      as [Hfst _].
    rewrite Hfst in He.
    destruct (follow_loop_setup inputs (start self white_value black_value))
      as (_ & _ & Hz).
    destruct (start_ready self white_value black_value
                (reachable_ready self Hr)) as [[_ Hm] _].
    specialize (Hz He). rewrite Hm in Hz. discriminate Hz.
Qed.

Lemma follow_line_gray_zone_witness :
  gray_zone (tracer (snd (follow_line init 90 10 [reading 60; reading 20])))
  = Some ((90 - 5 - (10 + 5)) * 0.3)
  /\ line_position
       (tracer (snd (follow_line init 90 10
                       ([reading 60; reading 20] ++ [reading 40]))))
     = 0%Z
  /\ fst (follow_line init 90 10 [reading 60; reading 20; reading 40])
     <> Some (Raised AttributeError).
Proof.
  assert (H : is_calibrated init = false \/ reachable init)
    by (left; reflexivity).
  destruct (follow_line_gray_zone init 90 10 [reading 60; reading 20] H)
    as (Hcal & _ & Hpid & _).
  destruct (follow_line_gray_zone init 90 10
              [reading 60; reading 20; reading 40] H)
    as (_ & _ & _ & Hattr & _).
  split; [|split].
  - exact (proj2 (proj2 (Hcal eq_refl))).
  - destruct (Hpid [reading 60; reading 20] (reading 40)) as (gray & Hg & _ & Hp).
    + vm_compute. reflexivity.
    + reflexivity.
    + vm_compute. reflexivity.
    + vm_compute. discriminate.
    + rewrite Hp. vm_compute in Hg. injection Hg as <-.
      vm_compute. reflexivity.
  - exact Hattr.
Defined.

(** * Further properties of the regulator *)

Lemma calculate_pid_turn (self : LineTracer) (v : Q) :
  fst (calculate_pid self v) = clamp (max_turn_rate self) (pid_raw self v).
Proof. rewrite calculate_pid_unfold. reflexivity. Qed.

Lemma calculate_pid_last_error (self : LineTracer) (v : Q) :
  last_error (snd (calculate_pid self v)) = pid_error self v.
Proof. rewrite calculate_pid_unfold. destruct self. reflexivity. Qed.

Lemma calculate_pid_setpoint (self : LineTracer) (v : Q) :
  0 <= max_turn_rate self -> 0 <= integral_limit self ->
  v == target_value self -> integral self == 0 -> last_error self == 0 ->
  fst (calculate_pid self v) == 0
  /\ integral (snd (calculate_pid self v)) == 0
  /\ last_error (snd (calculate_pid self v)) == 0.
Proof.
  intros Hmax Hlim Hv Hi Hle.
  rewrite calculate_pid_turn, calculate_pid_integral, calculate_pid_last_error.
  assert (He : pid_error self v == 0) by (unfold pid_error; lra).
  assert (Hc : pid_clamped self v == 0).
  { unfold pid_clamped, clamp. revert He. generalize (pid_error self v) as e.
    intros e He. by_cases; lra. }
  assert (HI : pid_integral self v == 0).
  { unfold pid_integral. destruct (pid_oscillating self v); lra. }
  assert (Hraw : pid_raw self v == 0).
  { unfold pid_raw. rewrite He, HI, Hle. ring. }
  split; [|split; assumption].
  unfold clamp. by_cases; lra.
Qed.

(** X1.  Steady state at the setpoint: with a non-negative
    [max_turn_rate] and [integral_limit], a regulator whose integral and
    last error are zero and that is fed readings equal to [target_value]
    returns the turn rate 0 at every update and keeps a zero integral and a
    zero last error. *)
Theorem setpoint_steady_state (values : list Q) (self : LineTracer) :
  0 <= max_turn_rate self -> 0 <= integral_limit self ->
  integral self == 0 -> last_error self == 0 ->
  Forall (fun v => v == target_value self) values ->
  Forall (fun turn_rate => turn_rate == 0) (pid_outputs self values)
  /\ integral (run_pid self values) == 0
  /\ last_error (run_pid self values) == 0.
Proof.
  revert self.
  induction values as [|v vs IH]; intros self Hmax Hlim Hi Hle Hall.
  - cbn. auto.
  - inversion Hall as [|? ? Hv Hvs]; subst.
    destruct (calculate_pid_setpoint self v Hmax Hlim Hv Hi Hle)
      as (Ht & Hi' & Hle').
    destruct (calculate_pid_config self v) as (Htv & Hl & _ & Hm & _).
    cbv zeta in Htv, Hl, Hm.
    destruct (IH (snd (calculate_pid self v))) as (Hts & Hir & Hler).
    + rewrite Hm. exact Hmax.
    + rewrite Hl. exact Hlim.
    + exact Hi'.
    + exact Hle'.
    + rewrite Htv. exact Hvs.
    + cbn [pid_outputs]. unfold run_pid in *. cbn [fold_left].
      split; [constructor; assumption | split; assumption].
Qed.

Lemma setpoint_steady_state_witness :
  Forall (fun turn_rate => turn_rate == 0)
    (pid_outputs (tracer on_track) [50; 50; 50]).
Proof.
  assert (Hmax : 0 <= max_turn_rate (tracer on_track))
    by (vm_compute; discriminate).
  assert (Hlim : 0 <= integral_limit (tracer on_track))
    by (vm_compute; discriminate).
  assert (Hi : integral (tracer on_track) == 0) by reflexivity.
  assert (Hle : last_error (tracer on_track) == 0) by reflexivity.
  assert (Hall : Forall (fun v => v == target_value (tracer on_track))
                   [50; 50; 50])
    by (repeat constructor).
  exact (proj1 (setpoint_steady_state [50; 50; 50] (tracer on_track)
                  Hmax Hlim Hi Hle Hall)).
Defined.

(** X2.  The error history is a window on the errors: for a positive
    [history_size] and a history that holds at most [history_size] entries,
    after any sequence of updates the history is the end of the old history
    followed by the new errors, in order, and holds all of them or
    [history_size] of them, whichever is less. *)
Theorem error_history_window (self : LineTracer) (values : list Q) :
  (0 < history_size self)%nat ->
  (length (error_history self) <= history_size self)%nat ->
  exists older,
    error_history self ++ map (fun v => v - target_value self) values
    = older ++ error_history (run_pid self values)
    /\ length (error_history (run_pid self values))
       = Nat.min (length (error_history self) + length values)
           (history_size self).
Proof.
  intros Hs Hlen.
  destruct (run_pid_history values self (error_history self) [])
    as (older & Heq & Hl); [exact Hs | reflexivity | lia |].
  exists older. split; assumption.
Qed.

Lemma error_history_window_witness :
  length (error_history (run_pid init (repeat 60 12))) = 10%nat.
Proof.
  assert (Hs : (0 < history_size init)%nat) by (cbn; lia).
  assert (Hlen : (length (error_history init) <= history_size init)%nat)
    by (cbn; lia).
  destruct (error_history_window init (repeat 60 12) Hs Hlen)
    as (older & _ & Hl).
  exact Hl.
Defined.

Lemma same_side_signs (a b : Q) :
  (0 <= a /\ 0 <= b) \/ (a <= 0 /\ b <= 0) -> opposite_signs a b = false.
Proof.
  intros H. unfold opposite_signs.
  by_cases; cbn; try reflexivity; exfalso; lra.
Qed.

Lemma one_side_pairs (h : list Q) :
  Forall (fun e => 0 <= e) h \/ Forall (fun e => e <= 0) h ->
  opposite_sign_pairs h = 0%nat.
Proof.
  induction h as [|a l IH]; [reflexivity|].
  destruct l as [|b l]; [reflexivity|].
  intros H.
  change (opposite_sign_pairs (a :: b :: l))
    with ((if opposite_signs a b then 1 else 0)
          + opposite_sign_pairs (b :: l))%nat.
  rewrite same_side_signs, IH; [reflexivity | |].
  - destruct H as [H|H]; inversion H; subst; auto.
  - destruct H as [H|H]; inversion H as [|? ? Ha Hl]; subst;
      inversion Hl; subst; auto.
Qed.

Lemma of_int_nonneg (n : nat) : 0 <= of_int n.
Proof.
  unfold of_int. change 0 with (inject_Z 0). rewrite <- Zle_Qle. lia.
Qed.

Lemma of_int_succ (n : nat) : of_int (S n) == of_int n + 1.
Proof.
  unfold of_int. rewrite Nat2Z.inj_succ. unfold Z.succ.
  rewrite inject_Z_plus. reflexivity.
Qed.

Lemma one_side_quiet (self : LineTracer) :
  Forall (fun e => 0 <= e) (error_history self)
  \/ Forall (fun e => e <= 0) (error_history self) ->
  detect_oscillation self = false.
Proof.
  intros H. unfold detect_oscillation.
  destruct (length (error_history self) <? history_size self)%nat;
    [reflexivity|].
  rewrite sign_changes_pairs, (one_side_pairs _ H).
  apply Qltb_ge. pose proof (of_int_nonneg (history_size self)) as Hn.
  change (of_int 0) with 0. lra.
Qed.

(** X3.  No oscillation on one side of the line: whatever [history_size]
    is, when the errors of the history are all non-negative, or all
    non-positive, [detect_oscillation] is false, so an update does not halve
    the integral. *)
Theorem one_side_no_oscillation (self : LineTracer) :
  Forall (fun e => 0 <= e) (error_history self)
  \/ Forall (fun e => e <= 0) (error_history self) ->
  detect_oscillation self = false.
Proof.
  intros H. unfold detect_oscillation.
  destruct (length (error_history self) <? history_size self)%nat;
    [reflexivity|].
  rewrite sign_changes_pairs, (one_side_pairs _ H).
  apply Qltb_ge. pose proof (of_int_nonneg (history_size self)) as Hn.
  change (of_int 0) with 0. lra.
Qed.

Lemma one_side_no_oscillation_witness :
  detect_oscillation (run_pid init (repeat 60 12)) = false.
Proof.
  apply one_side_no_oscillation. left. vm_compute.
  repeat (constructor; [discriminate|]). constructor.
Defined.

Lemma record_error_forall (P : Q -> Prop) (size : nat) (h : list Q) (e : Q) :
  Forall P h -> P e -> Forall P (record_error size h e).
Proof.
  intros Hh He. unfold record_error.
  assert (Hall : Forall P (h ++ [e]))
    by (apply Forall_app; split; [exact Hh | constructor; auto]).
  destruct (size <? length (h ++ [e]))%nat; [|exact Hall].
  destruct (h ++ [e]); [constructor|]. inversion Hall; assumption.
Qed.

(** One update with a positive error on a regulator that has seen no
    negative error. *)
Lemma calculate_pid_positive_error (self : LineTracer) (v e : Q) :
  0 <= integral_limit self -> 0 <= e ->
  v - target_value self == e ->
  0 <= integral self ->
  Forall (fun x => 0 <= x) (error_history self) ->
  let s := snd (calculate_pid self v) in
  integral s == Qmin (integral self + e) (integral_limit self)
  /\ 0 <= integral s
  /\ Forall (fun x => 0 <= x) (error_history s).
Proof.
  intros Hlim He Hv Hi Hh s. subst s.
  assert (Hh' : Forall (fun x => 0 <= x)
                  (error_history (snd (calculate_pid self v)))).
  { rewrite calculate_pid_history. unfold pid_history.
    apply record_error_forall; [exact Hh|]. unfold pid_error. lra. }
  assert (Hosc : pid_oscillating self v = false).
  { rewrite <- calculate_pid_detect. apply one_side_quiet.
    left. exact Hh'. }
  rewrite calculate_pid_integral. unfold pid_integral. rewrite Hosc.
  unfold pid_clamped, clamp, pid_error.
  split; [|split; [|exact Hh']].
  - destruct (Q.min_spec (integral self + e) (integral_limit self))
      as [[H1 H2]|[H1 H2]]; rewrite H2; by_cases; lra.
  - by_cases; lra.
Qed.

(** X4.  Wind-up under a constant error: with a non-negative
    [integral_limit], a regulator with a zero integral and no negative error
    in its history that is fed [n] readings at the same non-negative error
    [e] stores the integral [n * e] until that exceeds [integral_limit], and
    [integral_limit] from then on. *)
Theorem constant_error_windup (n : nat) (self : LineTracer) (v e : Q) :
  0 <= integral_limit self -> 0 <= e ->
  v - target_value self == e ->
  integral self == 0 ->
  Forall (fun x => 0 <= x) (error_history self) ->
  integral (run_pid self (repeat v n))
  == Qmin (of_int n * e) (integral_limit self).
Proof.
  intros Hlim He Hv Hi Hh.
  assert (Hgen : forall (k : nat) (s : LineTracer),
            integral_limit s = integral_limit self ->
            target_value s = target_value self ->
            0 <= integral s -> integral s <= integral_limit self ->
            Forall (fun x => 0 <= x) (error_history s) ->
            integral (run_pid s (repeat v k))
            == Qmin (integral s + of_int k * e) (integral_limit self)).
  { induction k as [|k IH]; intros s Hl Ht H0 H1 Hhs.
    - cbn [repeat]. unfold run_pid. cbn [fold_left].
      change (of_int 0) with 0.
      destruct (Q.min_spec (integral s + 0 * e) (integral_limit self))
        as [[H2 H3]|[H2 H3]]; rewrite H3; lra.
    - cbn [repeat]. unfold run_pid in *. cbn [fold_left].
      destruct (calculate_pid_positive_error s v e) as (Hs & Hs0 & Hsh);
        [rewrite Hl; exact Hlim | exact He | rewrite Ht; exact Hv
        | exact H0 | exact Hhs |].
      cbv zeta in Hs, Hs0, Hsh. rewrite Hl in Hs.
      destruct (calculate_pid_config s v) as (Ht' & Hl' & _).
      cbv zeta in Ht', Hl'.
      assert (Hs1 : integral (snd (calculate_pid s v))
                    <= integral_limit self).
      { rewrite Hs. apply Q.le_min_r. }
      rewrite (IH (snd (calculate_pid s v)));
        [| congruence | congruence | exact Hs0 | exact Hs1 | exact Hsh].
      pose proof (of_int_nonneg k) as Hk.
      pose proof (of_int_succ k) as HS.
      revert Hs. generalize (integral (snd (calculate_pid s v))) as i'.
      intros i' Hs.
      assert (Hke : 0 <= of_int k * e) by nra.
      assert (HSe : of_int (S k) * e == of_int k * e + e)
        by (rewrite HS; ring).
      revert Hke HSe. generalize (of_int k * e) as ke.
      generalize (of_int (S k) * e) as ske. intros ske ke Hke HSe.
      destruct (Q.min_spec (integral s + e) (integral_limit self))
        as [[A1 A2]|[A1 A2]]; rewrite A2 in Hs;
      destruct (Q.min_spec (i' + ke) (integral_limit self))
        as [[B1 B2]|[B1 B2]]; rewrite B2;
      destruct (Q.min_spec (integral s + ske) (integral_limit self))
        as [[C1 C2]|[C1 C2]]; rewrite C2; lra. }
  rewrite (Hgen n self); [| reflexivity | reflexivity | lra | lra | exact Hh].
  destruct (Q.min_spec (integral self + of_int n * e) (integral_limit self))
    as [[A1 A2]|[A1 A2]]; rewrite A2;
  destruct (Q.min_spec (of_int n * e) (integral_limit self))
    as [[B1 B2]|[B1 B2]]; rewrite B2; lra.
Qed.

Lemma constant_error_windup_witness :
  integral (run_pid init (repeat 60 12)) == 100.
Proof.
  assert (Hlim : 0 <= integral_limit init) by (vm_compute; discriminate).
  assert (He : 0 <= 12.5) by (vm_compute; discriminate).
  assert (Hv : 60 - target_value init == 12.5) by reflexivity.
  assert (Hi : integral init == 0) by reflexivity.
  assert (Hh : Forall (fun x => 0 <= x) (error_history init))
    by constructor.
  rewrite (constant_error_windup 12 init 60 12.5 Hlim He Hv Hi Hh).
  reflexivity.
Defined.

(** X5.  The regulator of Level 4 is [calculate_pid] without the damping:
    for a tracer with the limits of Level 4 (integral limit 100, maximum
    turn rate 250) and globals holding the same integral and last error, an
    update in which the oscillation test is false returns the same turn rate
    as [calculate_pid_control] called with the tracer's target and gains,
    and stores the same integral and last error. *)
Theorem calculate_pid_matches_Level4 (self : LineTracer)
  (g : Level4.Globals) (v : Q) :
  integral_limit self = Level4.integral_limit ->
  max_turn_rate self = Level4.max_turn ->
  Level4.integral g = integral self ->
  Level4.last_error g = last_error self ->
  detect_oscillation (snd (calculate_pid self v)) = false ->
  let r :=
    Level4.calculate_pid_control g v (target_value self) (kp self)
      (ki self) (kd self) in
  fst (calculate_pid self v) = fst (fst r)
  /\ snd (fst r) = v - target_value self
  /\ integral (snd (calculate_pid self v)) = Level4.integral (snd r)
  /\ last_error (snd (calculate_pid self v)) = Level4.last_error (snd r).
Proof.
  intros Hl Hm Hi Hle Hosc r. subst r.
  rewrite calculate_pid_detect in Hosc.
  rewrite calculate_pid_turn, calculate_pid_integral, calculate_pid_last_error.
  unfold pid_raw, pid_integral. rewrite Hosc.
  unfold pid_clamped, pid_error, clamp, Level4.calculate_pid_control.
  cbn [fst snd Level4.integral Level4.last_error].
  rewrite Hl, Hm, Hi, Hle. repeat split.
Qed.

Lemma calculate_pid_matches_Level4_witness :
  fst (calculate_pid init 60)
  = fst (fst (Level4.calculate_pid_control (Level4.mkGlobals 0 0 0 []) 60
                (target_value init) (kp init) (ki init) (kd init))).
Proof.
  assert (Hosc : detect_oscillation (snd (calculate_pid init 60)) = false)
    by (vm_compute; reflexivity).
  exact (proj1 (calculate_pid_matches_Level4 init
                  (Level4.mkGlobals 0 0 0 []) 60
                  eq_refl eq_refl eq_refl eq_refl Hosc)).
Defined.

(** * Further properties of the search and of the control loop *)

Lemma sweep_finds (self : LineTracer) (pattern : list Z) (k : nat)
  (readings : nat -> Q) (log : list Event) :
  (k < length pattern)%nat ->
  (forall j, (j < k)%nat -> target_value self <= readings j) ->
  readings k < target_value self ->
  sweep self pattern readings log
  = (true,
     set_line_position self
       (if (nth k pattern 0 >? 0)%Z then (-1)%Z else 1%Z),
     log ++ sweep_log (firstn (S k) pattern) readings).
Proof.
  revert k readings log.
  induction pattern as [|angle rest IH]; intros k readings log Hk Hbefore Hat.
  - cbn in Hk. lia.
  - destruct k as [|k].
    + cbn [sweep nth firstn sweep_log]. apply Qltb_lt in Hat. rewrite Hat.
      rewrite <- app_assoc. reflexivity.
    + cbn [sweep]. 
      assert (H0 : (readings 0%nat <? target_value self) = false)
        by (apply Qltb_ge, Hbefore; lia).
      rewrite H0, (IH k).
      * cbn [nth]. rewrite <- !app_assoc. reflexivity.
      * cbn [length] in Hk. lia.
      * intros j Hj. apply Hbefore. lia.
      * exact Hat.
Qed.

Lemma set_line_position_read (self : LineTracer) (p : Z) :
  line_position (set_line_position self p) = p.
Proof. destruct self. reflexivity. Qed.

(** X6.  A search that finds the line: when the sample after the pivot
    turn number [k] (counted from 0, below 6) is the first one below
    [target_value], [search_line] returns [True] after exactly [k + 1] pivot
    turns, each followed by one sample, and commands no stop.  It sets
    [line_position] to -1 when the last turn was positive and to 1 when it
    was negative: starting from a negative [line_position] that is -1 for an
    even [k] and 1 for an odd one, and the other way round otherwise.  The
    other attributes are unchanged. *)
Theorem search_line_finds (self : LineTracer) (readings : nat -> Q)
  (log : list Event) (k : nat) :
  (k < 6)%nat ->
  (forall j, (j < k)%nat -> target_value self <= readings j) ->
  readings k < target_value self ->
  let made := sweep_log (firstn (S k) (search_pattern self)) readings in
  let side :=
    if (line_position self <? 0)%Z
    then (if Nat.even k then (-1)%Z else 1%Z)
    else (if Nat.even k then 1%Z else (-1)%Z) in
  search_line self readings log
  = (true, set_line_position self side, log ++ made)
  /\ count_events is_turn made = S k
  /\ count_events is_reflection made = S k
  /\ count_events is_stop made = 0%nat.
Proof.
  intros Hk Hbefore Hat made side.
  pose proof (search_pattern_length self) as Hlen.
  split.
  - unfold search_line.
    rewrite (sweep_finds self (search_pattern self) k)
      by (rewrite ?Hlen; assumption).
    do 2 f_equal. subst side. unfold search_pattern.
    destruct (line_position self <? 0)%Z;
      do 6 (destruct k as [|k]; [reflexivity|]); lia.
  - destruct (sweep_log_counts (firstn (S k) (search_pattern self)) readings)
      as (H1 & H2 & H3 & _).
    subst made. rewrite H1, H2, H3, length_firstn, Hlen.
    repeat split; lia.
Qed.

Lemma search_line_finds_witness :
  fst (fst (search_line init (fun j => if (j <? 2)%nat then 90 else 20) []))
  = true.
Proof.
  assert (Hk : (2 < 6)%nat) by lia.
  assert (Hbefore : forall j, (j < 2)%nat ->
            target_value init <= (if (j <? 2)%nat then 90 else 20)).
  { intros j Hj. apply Nat.ltb_lt in Hj. rewrite Hj.
    vm_compute. discriminate. }
  assert (Hat : (if (2 <? 2)%nat then 90 else 20) < target_value init)
    by (vm_compute; reflexivity).
  rewrite (proj1 (search_line_finds init
                    (fun j => if (j <? 2)%nat then 90 else 20) [] 2
                    Hk Hbefore Hat)).
  reflexivity.
Defined.

Lemma same_config_refl (s : LineTracer) : same_config s s.
Proof. unfold same_config. tauto. Qed.

Lemma same_config_trans (a b c : LineTracer) :
  same_config a b -> same_config b c -> same_config a c.
Proof.
  unfold same_config. intros H K.
  decompose [and] H. decompose [and] K. repeat split; congruence.
Qed.

Lemma moved_same_config (s s' : LineTracer) : moved s s' -> same_config s s'.
Proof.
  intros [p ->]. destruct s. unfold same_config. cbn. tauto.
Qed.

Lemma calculate_pid_same_config (self : LineTracer) (v : Q) :
  same_config self (snd (calculate_pid self v)).
Proof.
  rewrite calculate_pid_unfold. destruct self. unfold same_config. cbn. tauto.
Qed.

Lemma steer_same_config (st : Loop) (v : Q) :
  same_config (tracer st) (tracer (snd (steer st v))).
Proof.
  unfold steer.
  destruct (detect_sharp_curve (tracer st) v) as [[|]|].
  - cbn [snd tracer]. apply moved_same_config. eexists; reflexivity.
  - cbn [snd tracer]. apply moved_same_config. eexists; reflexivity.
  - pose proof (calculate_pid_same_config (tracer st) v) as Hc.
    destruct (calculate_pid (tracer st) v) as [turn_rate self'].
    cbn [snd] in Hc.
    destruct (Qeq_bool (max_turn_rate self') 0); [exact Hc|].
    destruct (gray_zone self'); cbn [snd tracer]; [|exact Hc].
    apply (same_config_trans _ self'); [exact Hc|].
    apply moved_same_config. eexists; reflexivity.
Qed.

Lemma tick_same_config (st : Loop) (inp : TickInput) :
  same_config (tracer st) (tracer (snd (tick st inp))).
Proof.
  destruct (button_center inp) eqn:Hb.
  - unfold tick. rewrite Hb. apply same_config_refl.
  - rewrite (tick_unfold st inp Hb). cbv zeta.
    set (st0 := mkLoop (tracer st) (lost_line_count st)
                  (log st ++ [EvReflection (sensor_reading inp)])).
    destruct (check_lost_line_effect st0 (sensor_reading inp)
                (search_readings inp)) as (Hm & _).
    destruct (check_lost_line st0 (sensor_reading inp) (search_readings inp))
      as [go st1].
    cbn [fst snd] in *. change (tracer st0) with (tracer st) in Hm.
    apply moved_same_config in Hm.
    destruct go; cbn [negb snd]; [|exact Hm].
    apply (same_config_trans _ (tracer st1)); [exact Hm|].
    pose proof (steer_same_config st1 (sensor_reading inp)) as Hs.
    destruct (steer st1 (sensor_reading inp)) as [[e|] st2]; exact Hs.
Qed.

Lemma follow_loop_same_config (inputs : list TickInput) (st : Loop) :
  same_config (tracer st) (tracer (snd (follow_loop st inputs))).
Proof.
  revert st. induction inputs as [|inp rest IH]; intros st.
  - apply same_config_refl.
  - cbn [follow_loop]. pose proof (tick_same_config st inp) as Ht.
    destruct (tick st inp) as [[exit|] st1]; cbn [snd] in *; [exact Ht|].
    exact (same_config_trans _ _ _ Ht (IH st1)).
Qed.

(** X7.  What [follow_line] may write: when called on a calibrated tracer
    it leaves the calibration (thresholds, target, gray zone, flag), the
    gains, the limits, the history size and the speeds as they are, in
    every run and however the loop is left; only the integral, the last
    error, the error history and the line position can differ.  On a tracer
    that is not calibrated the same holds from the calibration it runs. *)
Theorem follow_line_keeps_configuration (self : LineTracer)
  (white_value black_value : Q) (inputs : list TickInput) :
  let after :=
    tracer (snd (follow_line self white_value black_value inputs)) in
  (is_calibrated self = true -> same_config self after)
  /\ (is_calibrated self = false ->
      same_config (calibrate self white_value black_value) after).
Proof.
  intros after. subst after.
  destruct (follow_line_exit self white_value black_value inputs) as [_ ->].
  pose proof (follow_loop_same_config inputs
                (start self white_value black_value)) as H.
  unfold start in *. cbn [tracer] in H.
  split; intros Hc; rewrite Hc in *; exact H.
Qed.

Lemma follow_line_keeps_configuration_witness :
  white_threshold
    (tracer (snd (follow_line (calibrate init 90 10) 70 30
                    [reading 60; reading 95; reading 20])))
  = white_threshold (calibrate init 90 10).
Proof.
  assert (Hc : is_calibrated (calibrate init 90 10) = true) by reflexivity.
  destruct (follow_line_keeps_configuration (calibrate init 90 10) 70 30
              [reading 60; reading 95; reading 20]) as [H _].
  exact (proj1 (proj2 (H Hc))).
Defined.

Lemma follow_loop_snoc (inputs : list TickInput) (last : TickInput)
  (st st' : Loop) :
  follow_loop st (inputs ++ [last]) = (None, st') ->
  exists st1, follow_loop st inputs = (None, st1) /\ tick st1 last = (None, st').
Proof.
  revert st. induction inputs as [|inp rest IH]; intros st Hrun.
  - cbn [app follow_loop] in *. exists st. split; [reflexivity|].
    destruct (tick st last) as [[exit|] st1]; [discriminate | exact Hrun].
  - cbn [app follow_loop] in *.
    destruct (tick st inp) as [[exit|] st1]; [discriminate|].
    apply IH, Hrun.
Qed.

Lemma lost_reading_is_sharp_right (self : LineTracer) (v : Q) :
  black_threshold self + 5 <= white_threshold self ->
  white_threshold self + 5 < v ->
  detect_sharp_curve self v = Some sharp_right.
Proof.
  intros Hbw Hv. unfold detect_sharp_curve. by_cases; try reflexivity;
    exfalso; lra.
Qed.

Lemma lost_tick_position (st st' : Loop) (inp : TickInput) :
  black_threshold (tracer st) + 5 <= white_threshold (tracer st) ->
  white_threshold (tracer st) + 5 < sensor_reading inp ->
  tick st inp = (None, st') ->
  line_position (tracer st') = 1%Z.
Proof.
  intros Hbw Hv Ht.
  pose proof (tick_running_button _ _ _ Ht) as Hb.
  rewrite (tick_unfold st inp Hb) in Ht. cbv zeta in Ht.
  set (st0 := mkLoop (tracer st) (lost_line_count st)
                (log st ++ [EvReflection (sensor_reading inp)])) in Ht.
  destruct (check_lost_line_effect st0 (sensor_reading inp)
              (search_readings inp)) as (Hm & _).
  destruct (check_lost_line st0 (sensor_reading inp) (search_readings inp))
    as [go st1].
  cbn [fst snd] in *. change (tracer st0) with (tracer st) in Hm.
  destruct go; cbn [negb] in Ht; [|discriminate].
  destruct (moved_fields _ _ Hm) as (Hb1 & Hw1 & _).
  destruct (steer_sharp st1 (sensor_reading inp) sharp_right)
    as (turn & Hs & _).
  { apply lost_reading_is_sharp_right; rewrite ?Hb1, ?Hw1; assumption. }
  rewrite Hs in Ht. injection Ht as <-. cbn [tracer sharp_position].
  apply set_line_position_read.
Qed.

(** X8.  The side found by a search does not survive its tick: with
    [black_threshold + 5 <= white_threshold], a tick of [follow_line] that
    enters the search and goes on (the search found the line) ends with
    [line_position] 1 and the counter at 0, whichever turn of the sweep
    found the line: the reading that started the search is still above
    [white_threshold + 5], so the sharp-right branch runs next and writes
    [line_position] again. *)
Theorem search_side_overwritten (st : Loop) (inp : TickInput) :
  black_threshold (tracer st) + 5 <= white_threshold (tracer st) ->
  enters_search st inp ->
  fst (tick st inp) = None ->
  line_position (tracer (snd (tick st inp))) = 1%Z
  /\ lost_line_count (snd (tick st inp)) = 0%nat
  /\ detect_sharp_curve (tracer st) (sensor_reading inp) = Some sharp_right.
Proof.
  intros Hbw Hs Hgo.
  destruct (enters_search_inv st inp Hs) as (Hb & Hv & H5).
  split; [|split].
  - apply (lost_tick_position st _ inp Hbw Hv).
    destruct (tick st inp) as [exit st']. cbn [fst snd] in *. now subst exit.
  - destruct (tick_cases st inp Hb) as (_ & Hcases). cbv zeta in Hcases.
    destruct Hcases as [(Hle & _) | [(_ & Hlt & _) | (_ & _ & _ & H)]];
      [lra | lia |].
    destruct H as [[H _] | [_ H]]; [congruence | exact H].
  - apply lost_reading_is_sharp_right; assumption.
Qed.

Lemma search_side_overwritten_witness :
  let found := mkTickInput false 95 (fun _ => 20) in
  line_position (tracer (snd (tick after_five found))) = 1%Z.
Proof.
  cbv zeta.
  assert (Hbw : black_threshold (tracer after_five) + 5
                <= white_threshold (tracer after_five))
    by (vm_compute; discriminate).
  assert (Hs : enters_search after_five (mkTickInput false 95 (fun _ => 20)))
    by (unfold enters_search; vm_compute; lia).
  assert (Hgo : fst (tick after_five (mkTickInput false 95 (fun _ => 20)))
                = None) by (vm_compute; reflexivity).
  exact (proj1 (search_side_overwritten after_five
                  (mkTickInput false 95 (fun _ => 20)) Hbw Hs Hgo)).
Defined.

(** X9.  Inside [follow_line] the search always sweeps the same way: in a
    run of the loop from a counter at 0 on a tracer with
    [black_threshold + 5 <= white_threshold], whenever a tick enters the
    search [line_position] is 1, because the lost tick before it went
    through the sharp-right branch; so the pattern swept is
    [-30, 60, -90, 120, -150, 180] and the pattern chosen for a negative
    [line_position] is never used. *)
Theorem search_sweeps_one_pattern (st0 st : Loop) (before : list TickInput)
  (inp : TickInput) :
  lost_line_count st0 = 0%nat ->
  black_threshold (tracer st0) + 5 <= white_threshold (tracer st0) ->
  follow_loop st0 before = (None, st) ->
  enters_search st inp ->
  line_position (tracer st) = 1%Z
  /\ search_pattern (tracer st) = [-30; 60; -90; 120; -150; 180]%Z.
Proof.
  intros H0 Hbw Hrun Hs.
  assert (Hpos : line_position (tracer st) = 1%Z).
  { destruct (enters_search_inv st inp Hs) as (_ & _ & H5).
    assert (Hinv : counter_inv (white_threshold (tracer st0)) [] st0).
    { split; [reflexivity|]. split; [lia|]. exists [], [].
      rewrite H0. auto. }
    destruct (follow_loop_counter_inv _ before [] st0 st Hinv Hrun)
      as (_ & Hle & earlier & recent & Hh & Hlen & Hall).
    cbn [app] in Hh.
    destruct (exists_last (l := recent)) as (r & prev & ->).
    { intros ->. cbn in Hlen. lia. }
    apply Forall_app in Hall. destruct Hall as [_ Hprev].
    inversion Hprev as [|? ? [_ Hv] _]; subst.
    rewrite app_assoc in Hrun.
    destruct (follow_loop_snoc _ _ _ _ Hrun) as (st1 & Hrun1 & Htick).
    pose proof (follow_loop_same_config (earlier ++ r) st0) as Hc.
    rewrite Hrun1 in Hc. cbn [snd] in Hc.
    destruct Hc as (Hb1 & Hw1 & _).
    apply (lost_tick_position st1 st prev); rewrite ?Hb1, ?Hw1; assumption. }
  split; [exact Hpos|]. unfold search_pattern. rewrite Hpos. reflexivity.
Qed.

Lemma search_sweeps_one_pattern_witness :
  search_pattern (tracer after_five) = [-30; 60; -90; 120; -150; 180]%Z.
Proof.
  assert (H0 : lost_line_count (start init 90 10) = 0%nat) by reflexivity.
  assert (Hbw : black_threshold (tracer (start init 90 10)) + 5
                <= white_threshold (tracer (start init 90 10)))
    by (vm_compute; discriminate).
  assert (Hs : enters_search after_five (reading 95))
    by (unfold enters_search; vm_compute; lia).
  exact (proj2 (search_sweeps_one_pattern (start init 90 10) after_five
                  (repeat (reading 95) 5) (reading 95)
                  H0 Hbw after_five_running Hs)).
Defined.

Lemma no_drive_within (base max : Q) (more : list Event) :
  Forall (fun e => is_drive e = false) more ->
  Forall (drive_within base max) more.
Proof.
  intros H. induction H as [|e l He _ IH]; constructor; [|exact IH].
  destruct e; try exact I. discriminate He.
Qed.

Lemma steer_drive_within (st : Loop) (v : Q) :
  0 < max_turn_rate (tracer st) -> 0 <= base_speed (tracer st) ->
  exists more,
    log (snd (steer st v)) = log st ++ more
    /\ Forall (drive_within (base_speed (tracer st))
                 (max_turn_rate (tracer st))) more.
Proof.
  intros Hmax Hbase. unfold steer.
  destruct (detect_sharp_curve (tracer st) v) as [[|]|].
  - cbn [snd log]. eexists. split; [reflexivity|].
    constructor; [|constructor]. unfold drive_within.
    split; [lra|]. split; [lra|]. apply Qabs_Qle_condition. lra.
  - cbn [snd log]. eexists. split; [reflexivity|].
    constructor; [|constructor]. unfold drive_within.
    split; [lra|]. split; [lra|]. apply Qabs_Qle_condition. lra.
  - pose proof (calculate_pid_turn (tracer st) v) as Hturn.
    destruct (calculate_pid_config (tracer st) v)
      as (_ & _ & _ & Hm & _ & _ & Hbs & _).
    cbv zeta in Hm, Hbs.
    destruct (calculate_pid (tracer st) v) as [turn_rate self'].
    cbn [fst snd] in *.
    destruct (Qeq_bool (max_turn_rate self') 0).
    + cbn [snd log]. exists []. rewrite app_nil_r. auto.
    + assert (Habs : Qabs turn_rate <= max_turn_rate (tracer st))
        by (rewrite Hturn; apply clamp_abs; lra).
      destruct (speed_factor_bounds (base_speed (tracer st)) turn_rate
                  (max_turn_rate (tracer st)) Hmax Hbase Habs) as [Hlo Hhi].
      rewrite Hm, Hbs.
      destruct (gray_zone self'); cbn [snd log];
        (eexists; split; [reflexivity|]);
        (constructor; [|constructor]); unfold drive_within;
        (split; [lra|]); (split; [exact Hhi | exact Habs]).
Qed.

Lemma tick_drive_within (st : Loop) (inp : TickInput) :
  0 < max_turn_rate (tracer st) -> 0 <= base_speed (tracer st) ->
  exists more,
    log (snd (tick st inp)) = log st ++ more
    /\ Forall (drive_within (base_speed (tracer st))
                 (max_turn_rate (tracer st))) more.
Proof.
  intros Hmax Hbase.
  destruct (button_center inp) eqn:Hb.
  - unfold tick. rewrite Hb. exists []. rewrite app_nil_r. auto.
  - rewrite (tick_unfold st inp Hb). cbv zeta.
    set (st0 := mkLoop (tracer st) (lost_line_count st)
                  (log st ++ [EvReflection (sensor_reading inp)])).
    destruct (check_lost_line_effect st0 (sensor_reading inp)
                (search_readings inp)) as (Hm & more & Hlog & Hnd).
    destruct (check_lost_line st0 (sensor_reading inp) (search_readings inp))
      as [go st1].
    cbn [fst snd] in *. change (tracer st0) with (tracer st) in Hm.
    change (log st0) with (log st ++ [EvReflection (sensor_reading inp)])
      in Hlog.
    destruct (moved_fields _ _ Hm) as (_ & _ & _ & _ & _ & _ & Hbs & Hmt & _).
    apply (no_drive_within (base_speed (tracer st))
             (max_turn_rate (tracer st))) in Hnd.
    destruct go; cbn [negb snd].
    + destruct (steer_drive_within st1 (sensor_reading inp)) as (d & Hd & Hdw);
        [rewrite Hmt; exact Hmax | rewrite Hbs; exact Hbase |].
      rewrite Hbs, Hmt in Hdw.
      exists (EvReflection (sensor_reading inp) :: more ++ d). split.
      * destruct (steer st1 (sensor_reading inp)) as [[e|] st2];
          cbn [snd] in *; rewrite Hd, Hlog, <- !app_assoc; reflexivity.
      * constructor; [exact I|]. apply Forall_app. split; assumption.
    + exists (EvReflection (sensor_reading inp) :: more). split.
      * rewrite Hlog, <- app_assoc. reflexivity.
      * constructor; [exact I | exact Hnd].
Qed.

Lemma follow_loop_drive_within (inputs : list TickInput) (st : Loop) :
  0 < max_turn_rate (tracer st) -> 0 <= base_speed (tracer st) ->
  exists more,
    log (snd (follow_loop st inputs)) = log st ++ more
    /\ Forall (drive_within (base_speed (tracer st))
                 (max_turn_rate (tracer st))) more.
Proof.
  revert st. induction inputs as [|inp rest IH]; intros st Hmax Hbase.
  - exists []. cbn. rewrite app_nil_r. auto.
  - cbn [follow_loop].
    destruct (tick_drive_within st inp Hmax Hbase) as (m1 & H1 & W1).
    pose proof (tick_same_config st inp) as Hc.
    destruct (tick st inp) as [[exit|] st1]; cbn [snd] in *.
    + exists m1. auto.
    + destruct Hc as (_ & _ & _ & _ & _ & _ & _ & _ & _ & _ & Hbs & Hmt).
      destruct (IH st1) as (m2 & H2 & W2);
        [rewrite Hmt; exact Hmax | rewrite Hbs; exact Hbase |].
      rewrite Hbs, Hmt in W2.
      exists (m1 ++ m2). split.
      * rewrite H2, H1, app_assoc. reflexivity.
      * apply Forall_app. split; assumption.
Qed.

(** X10.  The commands stay within the speeds of the tracer: for a positive
    [max_turn_rate] and a non-negative [base_speed], every drive command
    that [follow_line] sends, in the sharp-curve branch or in the PID
    branch, has a speed between half [base_speed] and [base_speed] and a
    turn rate of magnitude at most [max_turn_rate]. *)
Theorem drive_commands_bounded (self : LineTracer)
  (white_value black_value : Q) (inputs : list TickInput) :
  0 < max_turn_rate self -> 0 <= base_speed self ->
  Forall (drive_within (base_speed self) (max_turn_rate self))
    (log (snd (follow_line self white_value black_value inputs))).
Proof.
  intros Hmax Hbase.
  assert (Hb : base_speed (tracer (start self white_value black_value))
               = base_speed self)
    by (unfold start; cbn [tracer]; destruct (is_calibrated self);
        reflexivity).
  assert (Hm : max_turn_rate (tracer (start self white_value black_value))
               = max_turn_rate self)
    by (unfold start; cbn [tracer]; destruct (is_calibrated self);
        reflexivity).
  destruct (follow_loop_drive_within inputs
              (start self white_value black_value))
    as (more & Hlog & Hw); [rewrite Hm; exact Hmax | rewrite Hb; exact Hbase |].
  rewrite Hb, Hm in Hw. change (log (start self white_value black_value))
    with (@nil Event) in Hlog. cbn [app] in Hlog.
  rewrite follow_line_start.
  assert (Hstop : Forall (drive_within (base_speed self) (max_turn_rate self))
                    (more ++ [EvStop])).
  { apply Forall_app. split; [exact Hw|]. constructor; [exact I|constructor]. }
  destruct (follow_loop (start self white_value black_value) inputs)
    as [[[| |e]|] st]; cbn [snd log] in *; rewrite Hlog; assumption.
Qed.

Lemma drive_commands_bounded_witness :
  Forall (drive_within 150 250)
    (log (snd (follow_line init 90 10
                 [reading 60; reading 20; reading 95; reading 40]))).
Proof.
  assert (Hmax : 0 < max_turn_rate init) by (vm_compute; reflexivity).
  assert (Hbase : 0 <= base_speed init) by (vm_compute; discriminate).
  exact (drive_commands_bounded init 90 10
           [reading 60; reading 20; reading 95; reading 40] Hmax Hbase).
Defined.

Lemma sweep_found_quiet (pattern : list Z) (self : LineTracer)
  (readings : nat -> Q) (log : list Event) :
  fst (fst (sweep self pattern readings log)) = true ->
  exists more,
    snd (sweep self pattern readings log) = log ++ more /\ Forall quiet more.
Proof.
  revert readings log.
  induction pattern as [|angle rest IH]; intros readings log; cbn [sweep].
  - discriminate.
  - destruct (readings 0%nat <? target_value self).
    + intros _. exists [EvTurn angle; EvReflection (readings 0%nat)].
      cbn [snd]. rewrite <- app_assoc.
      split; [reflexivity | repeat constructor].
    + intros Hf.
      destruct (IH (fun k => readings (S k))
                  ((log ++ [EvTurn angle]) ++ [EvReflection (readings 0%nat)])
                  Hf) as (more & Hlog & Hq).
      exists (EvTurn angle :: EvReflection (readings 0%nat) :: more).
      split; [rewrite Hlog, <- !app_assoc; reflexivity|].
      repeat constructor. exact Hq.
Qed.

Lemma check_lost_line_running (st : Loop) (v : Q) (readings : nat -> Q) :
  fst (check_lost_line st v readings) = true ->
  exists more,
    log (snd (check_lost_line st v readings)) = log st ++ more
    /\ Forall quiet more.
Proof.
  unfold check_lost_line.
  destruct (white_threshold (tracer st) + 5 <? v);
    [destruct (5 <? S (lost_line_count st))%nat|];
    try solve [intros _; exists []; cbn [snd log]; rewrite app_nil_r; auto].
  unfold search_line.
  pose proof (sweep_found_quiet (search_pattern (tracer st)) (tracer st)
                readings (log st)) as Hq.
  destruct (sweep (tracer st) (search_pattern (tracer st)) readings (log st))
    as [[found self'] log'].
  cbn [fst snd] in Hq. destruct found; cbn [negb fst snd log].
  - intros _. apply Hq. reflexivity.
  - discriminate.
Qed.

Lemma steer_running_log (st : Loop) (v : Q) :
  fst (steer st v) = None ->
  exists speed turn_rate,
    log (snd (steer st v)) = log st ++ [EvDrive speed turn_rate].
Proof.
  unfold steer.
  destruct (detect_sharp_curve (tracer st) v) as [[|]|].
  - intros _. cbn [snd log]. eauto.
  - intros _. cbn [snd log]. eauto.
  - destruct (calculate_pid (tracer st) v) as [turn_rate self'].
    destruct (Qeq_bool (max_turn_rate self') 0); [discriminate|].
    destruct (gray_zone self'); [|discriminate].
    intros _. cbn [snd log]. eauto.
Qed.

Lemma count_events_quiet (more : list Event) :
  Forall quiet more ->
  count_events is_drive more = 0%nat /\ count_events is_stop more = 0%nat.
Proof.
  unfold count_events.
  induction 1 as [|e l [Hd Hs] _ [IH1 IH2]]; [auto|].
  cbn [filter]. rewrite Hd, Hs. auto.
Qed.

Lemma tick_running_log (st st' : Loop) (inp : TickInput) :
  tick st inp = (None, st') ->
  count_events is_drive (log st') = S (count_events is_drive (log st))
  /\ count_events is_stop (log st') = count_events is_stop (log st).
Proof.
  intros Ht. pose proof (tick_running_button _ _ _ Ht) as Hb.
  rewrite (tick_unfold st inp Hb) in Ht. cbv zeta in Ht.
  set (st0 := mkLoop (tracer st) (lost_line_count st)
                (log st ++ [EvReflection (sensor_reading inp)])) in Ht.
  pose proof (check_lost_line_running st0 (sensor_reading inp)
                (search_readings inp)) as Hq.
  destruct (check_lost_line st0 (sensor_reading inp) (search_readings inp))
    as [go st1].
  cbn [fst snd] in *. destruct go; cbn [negb] in Ht; [|discriminate].
  destruct (Hq eq_refl) as (more & Hlog & Hquiet).
  destruct (count_events_quiet more Hquiet) as [Hd Hs].
  pose proof (steer_running_log st1 (sensor_reading inp)) as Hdrive.
  destruct (steer st1 (sensor_reading inp)) as [[e|] st2]; [discriminate|].
  injection Ht as <-. cbn [fst snd] in Hdrive.
  destruct (Hdrive eq_refl) as (speed & turn_rate & ->).
  rewrite Hlog. unfold st0. cbn [log].
  rewrite !count_events_app, Hd, Hs. cbn. lia.
Qed.

(** X11.  While the loop of [follow_line] is running, every tick commands
    drive exactly once and the stop is never commanded: after [n] ticks
    that leave the loop running the log holds [n] more drive commands and
    no more stop. *)
Theorem running_ticks_drive_once (inputs : list TickInput) (st st' : Loop) :
  follow_loop st inputs = (None, st') ->
  count_events is_drive (log st')
  = (count_events is_drive (log st) + length inputs)%nat
  /\ count_events is_stop (log st') = count_events is_stop (log st).
Proof.
  revert st. induction inputs as [|inp rest IH]; intros st Hrun.
  - cbn in Hrun. injection Hrun as <-. cbn. auto.
  - cbn [follow_loop] in Hrun.
    destruct (tick st inp) as [[exit|] st1] eqn:Ht; [discriminate|].
    destruct (tick_running_log _ _ _ Ht) as [Hd Hs].
    destruct (IH st1 Hrun) as [Hd' Hs'].
    cbn [length]. split; [lia | congruence].
Qed.

Lemma running_ticks_drive_once_witness :
  count_events is_drive (log after_five) = 5%nat.
Proof.
  exact (proj1 (running_ticks_drive_once (repeat (reading 95) 5)
                  (start init 90 10) after_five after_five_running)).
Defined.

Lemma reachable_no_exception (self : LineTracer) (white_value black_value : Q)
  (inputs : list TickInput) (e : Exn) :
  reachable self ->
  fst (follow_loop (start self white_value black_value) inputs)
  <> Some (Raised e).
Proof.
  intros Hr He.
  destruct (follow_loop_setup inputs (start self white_value black_value))
    as (_ & Ha & Hz).
  destruct (start_ready self white_value black_value
              (reachable_ready self Hr)) as [[_ Hm] Hg].
  destruct e.
  - exact (Hg (Ha He)).
  - specialize (Hz He). rewrite Hm in Hz. discriminate Hz.
Qed.

(** X12.  The robot is stopped whenever [follow_line] returns: for every
    tracer the program can hold, a run of [follow_line] that leaves its loop
    does so on the button or on a failed search, never on an exception, and
    the last command it sends is the stop. *)
Theorem follow_line_ends_stopped (self : LineTracer)
  (white_value black_value : Q) (inputs : list TickInput) (exit : Exit) :
  reachable self ->
  fst (follow_line self white_value black_value inputs) = Some exit ->
  (exit = ButtonStop \/ exit = LineLost)
  /\ exists earlier,
       log (snd (follow_line self white_value black_value inputs))
       = earlier ++ [EvStop].
Proof.
  intros Hr. rewrite follow_line_start.
  pose proof (reachable_no_exception self white_value black_value inputs)
    as Hno.
  destruct (follow_loop (start self white_value black_value) inputs)
    as [[[| |e]|] st]; cbn [fst snd log] in *; intros Hexit.
  - injection Hexit as <-. split; [left; reflexivity | eauto].
  - injection Hexit as <-. split; [right; reflexivity | eauto].
  - exfalso. exact (Hno e Hr eq_refl).
  - discriminate.
Qed.

Lemma follow_line_ends_stopped_witness :
  exists earlier,
    log (snd (follow_line init 90 10
                [reading 60; mkTickInput true 0 (fun _ => 0)]))
    = earlier ++ [EvStop].
Proof.
  assert (Hexit : fst (follow_line init 90 10
                         [reading 60; mkTickInput true 0 (fun _ => 0)])
                  = Some ButtonStop) by (vm_compute; reflexivity).
  exact (proj2 (follow_line_ends_stopped init 90 10
                  [reading 60; mkTickInput true 0 (fun _ => 0)] ButtonStop
                  reachable_init Hexit)).
Defined.

Lemma tick_counter_bound (st : Loop) (inp : TickInput) :
  (lost_line_count st <= 5)%nat ->
  (fst (tick st inp) = Some LineLost ->
   lost_line_count (snd (tick st inp)) = 6%nat)
  /\ (fst (tick st inp) <> Some LineLost ->
      (lost_line_count (snd (tick st inp)) <= 5)%nat).
Proof.
  intros Hle. destruct (button_center inp) eqn:Hb.
  - unfold tick. rewrite Hb. cbn [fst snd]. split; [discriminate | auto].
  - destruct (tick_cases st inp Hb) as (_ & Hcases). cbv zeta in Hcases.
    destruct Hcases as [(_ & H0 & _ & Hne)
                       | [(_ & Hlt & HS & _ & Hn)
                         | (_ & H5 & _ & [[HL HS] | [Hn H0]])]].
    + split; [contradiction | lia].
    + split; [congruence | lia].
    + split; [lia | contradiction].
    + split; [congruence | lia].
Qed.

(** X13.  The counter stays small: in a run of the loop of [follow_line]
    from a counter of at most 5, the counter is at most 5 whenever the loop
    is still running or was left on the button, and it is exactly 6 when
    the loop was left on a failed search. *)
Theorem lost_line_count_bounded (inputs : list TickInput) (st : Loop) :
  (lost_line_count st <= 5)%nat ->
  (fst (follow_loop st inputs) = Some LineLost ->
   lost_line_count (snd (follow_loop st inputs)) = 6%nat)
  /\ (fst (follow_loop st inputs) <> Some LineLost ->
      (lost_line_count (snd (follow_loop st inputs)) <= 5)%nat).
Proof.
  revert st. induction inputs as [|inp rest IH]; intros st Hle.
  - cbn. split; [discriminate | auto].
  - cbn [follow_loop]. destruct (tick_counter_bound st inp Hle) as [H6 H5].
    destruct (tick st inp) as [[exit|] st1]; cbn [fst snd] in *.
    + split; assumption.
    + apply IH, H5. discriminate.
Qed.

Lemma lost_line_count_bounded_witness :
  lost_line_count
    (snd (follow_loop (start init 90 10) (repeat (reading 95) 6)))
  = 6%nat.
Proof.
  assert (Hle : (lost_line_count (start init 90 10) <= 5)%nat)
    by (cbn; lia).
  assert (Hexit : fst (follow_loop (start init 90 10)
                         (repeat (reading 95) 6)) = Some LineLost)
    by (vm_compute; reflexivity).
  exact (proj1 (lost_line_count_bounded (repeat (reading 95) 6)
                  (start init 90 10) Hle) Hexit).
Defined.

(** * Further properties of the settings, the sensor test and [main] *)

Lemma settings_only_refl (s : LineTracer) : settings_only s s.
Proof. unfold settings_only. tauto. Qed.

Lemma settings_only_trans (a b c : LineTracer) :
  settings_only a b -> settings_only b c -> settings_only a c.
Proof.
  unfold settings_only. intros H K.
  decompose [and] H. decompose [and] K. repeat split; congruence.
Qed.

Lemma set_kp_settings (s : LineTracer) (v : Q) :
  settings_only s (set_kp s v)
  /\ kp (set_kp s v) = v /\ base_speed (set_kp s v) = base_speed s.
Proof. destruct s. unfold settings_only. cbn. tauto. Qed.

Lemma set_base_speed_settings (s : LineTracer) (v : Q) :
  settings_only s (set_base_speed s v)
  /\ kp (set_base_speed s v) = kp s /\ base_speed (set_base_speed s v) = v.
Proof. destruct s. unfold settings_only. cbn. tauto. Qed.

Lemma advanced_settings_effect (polls : list (list Button))
  (s : LineTracer) :
  let s' := advanced_settings s polls in
  settings_only s s'
  /\ (50 <= base_speed s -> 50 <= base_speed s')
  /\ (50 <= base_speed s ->
      base_speed s' <= base_speed s + 10 * of_int (length polls))
  /\ (Forall (fun buttons =>
                pressed LEFT buttons = false /\ pressed RIGHT buttons = false)
        polls ->
      kp s' = kp s).
Proof.
  revert s. induction polls as [|buttons rest IH]; intros s; cbv zeta.
  - cbn [advanced_settings length]. split; [apply settings_only_refl|].
    split; [auto|]. split; [|auto]. change (of_int 0) with 0. lra.
  - cbn [advanced_settings length].
    pose proof (of_int_succ (length rest)) as HS.
    pose proof (of_int_nonneg (length rest)) as Hn.
    destruct (pressed LEFT buttons) eqn:EL.
    { destruct (IH (set_kp s (kp s - 0.1))) as (H1 & H2 & H3 & _).
      destruct (set_kp_settings s (kp s - 0.1)) as (K1 & _ & K3).
      cbv zeta in H1, H2, H3. rewrite K3 in H2, H3.
      split; [exact (settings_only_trans _ _ _ K1 H1)|]. split; [exact H2|].
      split; [intros Hb; specialize (H3 Hb); lra|].
      intros Hall. inversion Hall as [|? ? [HL _] _]; subst. congruence. }
    destruct (pressed RIGHT buttons) eqn:ER.
    { destruct (IH (set_kp s (kp s + 0.1))) as (H1 & H2 & H3 & _).
      destruct (set_kp_settings s (kp s + 0.1)) as (K1 & _ & K3).
      cbv zeta in H1, H2, H3. rewrite K3 in H2, H3.
      split; [exact (settings_only_trans _ _ _ K1 H1)|]. split; [exact H2|].
      split; [intros Hb; specialize (H3 Hb); lra|].
      intros Hall. inversion Hall as [|? ? [_ HR] _]; subst. congruence. }
    destruct (pressed UP buttons).
    { destruct (IH (set_base_speed s (base_speed s + 10)))
        as (H1 & H2 & H3 & H4).
      destruct (set_base_speed_settings s (base_speed s + 10))
        as (K1 & K2 & K3).
      cbv zeta in H1, H2, H3, H4. rewrite K3 in H2, H3. rewrite K2 in H4.
      split; [exact (settings_only_trans _ _ _ K1 H1)|].
      split; [intros Hb; apply H2; lra|].
      split; [intros Hb; assert (Hb' : 50 <= base_speed s + 10) by lra;
              specialize (H3 Hb'); lra|].
      intros Hall. inversion Hall; subst. auto. }
    destruct (pressed DOWN buttons).
    { destruct (set_base_speed_settings s (base_speed s - 10))
        as (K1 & K2 & K3).
      set (s1 := set_base_speed s (base_speed s - 10)) in *.
      destruct (set_base_speed_settings s1 50) as (L1 & L2 & L3).
      set (s2 := if base_speed s1 <? 50 then set_base_speed s1 50 else s1).
      assert (Hs2 : settings_only s s2 /\ kp s2 = kp s
                    /\ 50 <= base_speed s2
                    /\ (50 <= base_speed s -> base_speed s2 <= base_speed s)).
      { subst s2. destruct (base_speed s1 <? 50) eqn:E.
        - split; [exact (settings_only_trans _ _ _ K1 L1)|].
          split; [congruence|]. rewrite L3. split; [lra | auto].
        - apply Qltb_ge in E. split; [exact K1|]. split; [exact K2|].
          split; [exact E|]. rewrite K3. intros _. lra. }
      destruct Hs2 as (M1 & M2 & M3 & M4).
      destruct (IH s2) as (H1 & H2 & H3 & H4). cbv zeta in H1, H2, H3, H4.
      rewrite M2 in H4.
      split; [exact (settings_only_trans _ _ _ M1 H1)|].
      split; [intros _; exact (H2 M3)|].
      split; [intros Hb; specialize (H3 M3); specialize (M4 Hb); lra|].
      intros Hall. inversion Hall; subst. auto. }
    destruct (pressed CENTER buttons).
    { split; [apply settings_only_refl|]. split; [auto|].
      split; [intros _; lra | auto]. }
    destruct (IH s) as (H1 & H2 & H3 & H4). cbv zeta in H1, H2, H3, H4.
    split; [exact H1|]. split; [exact H2|].
    split; [intros Hb; specialize (H3 Hb); lra|].
    intros Hall. inversion Hall; subst. auto.
Qed.

(** X14.  The settings menu writes two attributes only: whatever buttons
    are seen, [advanced_settings] leaves the calibration, the regulator
    state, the other gains and the limits as they are.  A base speed that
    is at least 50 stays at least 50 (a press on DOWN that would go below
    sets it to 50) and grows by at most 10 per poll; and [kp] is unchanged
    when neither LEFT nor RIGHT is seen pressed. *)
Theorem advanced_settings_writes (s : LineTracer)
  (polls : list (list Button)) :
  50 <= base_speed s ->
  settings_only s (advanced_settings s polls)
  /\ 50 <= base_speed (advanced_settings s polls)
  /\ base_speed (advanced_settings s polls)
     <= base_speed s + 10 * of_int (length polls)
  /\ (Forall (fun buttons =>
                pressed LEFT buttons = false /\ pressed RIGHT buttons = false)
        polls ->
      kp (advanced_settings s polls) = kp s).
Proof.
  intros Hb.
  destruct (advanced_settings_effect polls s) as (H1 & H2 & H3 & H4).
  split; [exact H1|]. split; [exact (H2 Hb)|].
  split; [exact (H3 Hb) | exact H4].
Qed.

Lemma advanced_settings_writes_witness :
  50 <= base_speed
          (advanced_settings init (repeat [DOWN] 12 ++ [[UP]; [CENTER]]))
  /\ kp (advanced_settings init (repeat [DOWN] 12 ++ [[UP]; [CENTER]]))
     = kp init.
Proof.
  assert (Hb : 50 <= base_speed init) by (vm_compute; discriminate).
  destruct (advanced_settings_writes init
              (repeat [DOWN] 12 ++ [[UP]; [CENTER]]) Hb)
    as (_ & H2 & _ & H4).
  split; [exact H2|]. apply H4.
  repeat (constructor; [split; reflexivity|]). constructor.
Defined.

(** X15.  The sensor test and the curve detector agree: a reflectance
    shown as black by [test_sensors] is classified [sharp_left]; a
    reflectance for which the curve detector answers [None], the only ones
    that reach the PID branch, is shown as gray; and when the thresholds are
    at least 10 apart a reflectance shown as white is classified
    [sharp_right]. *)
Theorem sensor_status_curve (self : LineTracer) (reflection : Q) :
  (sensor_status self reflection = Black ->
   detect_sharp_curve self reflection = Some sharp_left)
  /\ (detect_sharp_curve self reflection = None ->
      sensor_status self reflection = Gray)
  /\ (black_threshold self + 10 <= white_threshold self ->
      sensor_status self reflection = White ->
      detect_sharp_curve self reflection = Some sharp_right).
Proof.
  unfold sensor_status, detect_sharp_curve.
  split; [|split].
  - by_cases; intros; try reflexivity; try discriminate; exfalso; lra.
  - by_cases; intros; try reflexivity; try discriminate; exfalso; lra.
  - intros Hbw. by_cases; intros; try reflexivity; try discriminate;
      exfalso; lra.
Qed.

Lemma sensor_status_curve_witness :
  detect_sharp_curve init 5 = Some sharp_left
  /\ sensor_status init 50 = Gray
  /\ detect_sharp_curve init 90 = Some sharp_right.
Proof.
  destruct (sensor_status_curve init 5) as (H1 & _ & _).
  destruct (sensor_status_curve init 50) as (_ & H2 & _).
  destruct (sensor_status_curve init 90) as (_ & _ & H3).
  split; [|split].
  - apply H1. vm_compute. reflexivity.
  - apply H2. vm_compute. reflexivity.
  - apply H3; vm_compute; [discriminate | reflexivity].
Defined.

Lemma well_formed_position (s : LineTracer) (p : Z) :
  well_formed s -> (p = (-1)%Z \/ p = 0%Z \/ p = 1%Z) ->
  well_formed (set_line_position s p).
Proof.
  intros (_ & H) Hp. destruct s. unfold well_formed in *. cbn in *.
  split; assumption.
Qed.

Lemma sweep_side (pattern : list Z) (self : LineTracer)
  (readings : nat -> Q) (log : list Event) :
  let self' := snd (fst (sweep self pattern readings log)) in
  self' = self
  \/ self' = set_line_position self (-1)
  \/ self' = set_line_position self 1.
Proof.
  revert readings log.
  induction pattern as [|angle rest IH]; intros readings log; cbn [sweep].
  - left. reflexivity.
  - destruct (readings 0%nat <? target_value self).
    + cbn [fst snd]. destruct (angle >? 0)%Z; auto.
    + apply IH.
Qed.

Lemma check_lost_line_well_formed (st : Loop) (v : Q)
  (readings : nat -> Q) :
  well_formed (tracer st) ->
  well_formed (tracer (snd (check_lost_line st v readings))).
Proof.
  intros Hw. unfold check_lost_line.
  destruct (white_threshold (tracer st) + 5 <? v);
    [destruct (5 <? S (lost_line_count st))%nat|]; try exact Hw.
  unfold search_line.
  pose proof (sweep_side (search_pattern (tracer st)) (tracer st) readings
                (log st)) as Hside.
  destruct (sweep (tracer st) (search_pattern (tracer st)) readings (log st))
    as [[found self'] log'].
  cbn [fst snd] in Hside.
  assert (Hw' : well_formed self').
  { destruct Hside as [-> | [-> | ->]];
      [exact Hw | apply well_formed_position; auto
      | apply well_formed_position; auto]. }
  destruct found; exact Hw'.
Qed.

Lemma record_error_length (size : nat) (h : list Q) (e : Q) :
  (0 < size)%nat -> (length h <= size)%nat ->
  (length (record_error size h e) <= size)%nat.
Proof.
  intros Hs Hl. unfold record_error.
  destruct (size <? length (h ++ [e]))%nat eqn:E.
  - rewrite length_app in E. cbn [length] in E.
    destruct h as [|x h']; cbn [app tl length] in *.
    + lia.
    + rewrite length_app. cbn [length]. lia.
  - apply Nat.ltb_ge in E. exact E.
Qed.

Lemma calculate_pid_position (self : LineTracer) (v : Q) :
  line_position (snd (calculate_pid self v)) = line_position self.
Proof. rewrite calculate_pid_unfold. destruct self. reflexivity. Qed.

Lemma calculate_pid_well_formed (self : LineTracer) (v : Q) :
  well_formed self -> well_formed (snd (calculate_pid self v)).
Proof.
  intros (Hp & Hb & Hi & Hl & Hh & Hs & Hm).
  destruct (calculate_pid_same_config self v)
    as (_ & _ & _ & _ & _ & _ & _ & _ & Kl & Ks & Kb & Km).
  unfold well_formed.
  rewrite calculate_pid_position, calculate_pid_integral,
    calculate_pid_history, Kl, Ks, Kb, Km.
  split; [exact Hp|]. split; [exact Hb|]. split.
  { assert (H100 : 0 <= integral_limit self) by (rewrite Hl; lra).
    pose proof (pid_integral_abs self v H100) as Ha. rewrite Hl in Ha.
    exact Ha. }
  split; [exact Hl|]. split; [|split; assumption].
  unfold pid_history. rewrite Hs. apply record_error_length; lia.
Qed.

Lemma steer_well_formed (st : Loop) (v : Q) :
  well_formed (tracer st) -> well_formed (tracer (snd (steer st v))).
Proof.
  intros Hw. unfold steer.
  destruct (detect_sharp_curve (tracer st) v) as [[|]|].
  - cbn [snd tracer]. apply well_formed_position; auto.
  - cbn [snd tracer]. apply well_formed_position; auto.
  - pose proof (calculate_pid_well_formed (tracer st) v Hw) as Hc.
    destruct (calculate_pid (tracer st) v) as [turn_rate self'].
    cbn [snd] in Hc.
    destruct (Qeq_bool (max_turn_rate self') 0); [exact Hc|].
    destruct (gray_zone self'); cbn [snd tracer]; [|exact Hc].
    apply well_formed_position; [exact Hc|].
    destruct (_ <? _); [auto|]. destruct (_ <? _); auto.
Qed.

Lemma tick_well_formed (st : Loop) (inp : TickInput) :
  well_formed (tracer st) -> well_formed (tracer (snd (tick st inp))).
Proof.
  intros Hw. destruct (button_center inp) eqn:Hb.
  - unfold tick. rewrite Hb. exact Hw.
  - rewrite (tick_unfold st inp Hb). cbv zeta.
    set (st0 := mkLoop (tracer st) (lost_line_count st)
                  (log st ++ [EvReflection (sensor_reading inp)])).
    pose proof (check_lost_line_well_formed st0 (sensor_reading inp)
                  (search_readings inp) Hw) as H1.
    destruct (check_lost_line st0 (sensor_reading inp) (search_readings inp))
      as [go st1].
    cbn [fst snd] in *. destruct go; cbn [negb snd]; [|exact H1].
    pose proof (steer_well_formed st1 (sensor_reading inp) H1) as H2.
    destruct (steer st1 (sensor_reading inp)) as [[e|] st2]; exact H2.
Qed.

Lemma follow_loop_well_formed (inputs : list TickInput) (st : Loop) :
  well_formed (tracer st) ->
  well_formed (tracer (snd (follow_loop st inputs))).
Proof.
  revert st. induction inputs as [|inp rest IH]; intros st Hw.
  - exact Hw.
  - cbn [follow_loop]. pose proof (tick_well_formed st inp Hw) as Ht.
    destruct (tick st inp) as [[exit|] st1]; cbn [snd] in *; [exact Ht|].
    apply IH, Ht.
Qed.

Lemma calibrate_well_formed (s : LineTracer) (white_value black_value : Q) :
  well_formed s -> well_formed (calibrate s white_value black_value).
Proof. intros H. exact H. Qed.

(** X16.  The state of every tracer the program can hold, that is of the
    tracer built by [__init__] after any sequence of calls of [calibrate],
    [advanced_settings] and [follow_line]: [line_position] is -1, 0 or 1;
    the base speed is at least 50; the integral is within the limit 100;
    the error history holds at most 10 entries, its capacity; the maximum
    turn rate is 250. *)
Theorem reachable_well_formed (s : LineTracer) :
  reachable s -> well_formed s.
Proof.
  induction 1 as [|s w b _ IH|s polls _ IH|s w b inputs _ IH].
  - unfold well_formed, init. tracer_simpl.
    split; [auto|]. split; [lra|]. split; [apply Qabs_Qle_condition; lra|].
    cbn [length]. repeat split; lia.
  - apply calibrate_well_formed, IH.
  - destruct IH as (Hp & Hb & Hi & Hl & Hh & Hs & Hm).
    destruct (advanced_settings_effect polls s) as (Hso & Hbase & _).
    cbv zeta in Hso, Hbase. unfold settings_only in Hso.
    decompose [and] Hso. unfold well_formed.
    repeat match goal with H : _ = _ |- _ => rewrite H end.
    split; [exact Hp|]. split; [exact (Hbase Hb)|].
    split; [exact Hi|]. auto.
  - destruct (follow_line_exit s w b inputs) as [_ ->].
    apply follow_loop_well_formed. unfold start. cbn [tracer].
    destruct (is_calibrated s); cbn [negb];
      [exact IH | apply calibrate_well_formed, IH].
Qed.

Lemma reachable_well_formed_witness :
  well_formed
    (tracer (snd (follow_line
                    (advanced_settings (calibrate init 90 10) [[DOWN]; []])
                    0 0 [reading 60; reading 95; reading 20]))).
Proof.
  apply reachable_well_formed.
  apply reachable_follow, reachable_settings, reachable_calibrate,
    reachable_init.
Defined.

Lemma follow_line_calibrated (t : LineTracer) (w b w' b' : Q)
  (inputs : list TickInput) :
  is_calibrated t = true ->
  follow_line t w b inputs = follow_line t w' b' inputs.
Proof.
  intros Hc. unfold follow_line. rewrite Hc. reflexivity.
Qed.

Lemma main_tracer (menu : list (list Button)) (white_value black_value : Q)
  (settings : list (list Button)) (fw fb : Q) (inputs : list TickInput)
  (result : option Exit * Loop) :
  main menu white_value black_value settings fw fb inputs
  = Some (Traced result) ->
  exists t,
    reachable t
    /\ is_calibrated t = true
    /\ black_threshold t = black_value + 5
    /\ white_threshold t = white_value - 5
    /\ target_value t = (black_value + 5 + (white_value - 5)) / 2
    /\ result = follow_line t fw fb inputs
    /\ forall fw' fb',
         main menu white_value black_value settings fw' fb' inputs
         = Some (Traced (follow_line t fw' fb' inputs)).
Proof.
  induction menu as [|buttons rest IH]; cbn [main]; [discriminate|].
  set (c := calibrate init white_value black_value).
  assert (Hrc : reachable c) by (apply reachable_calibrate, reachable_init).
  destruct (pressed LEFT buttons); [discriminate|].
  destruct (pressed RIGHT buttons).
  { intros H. injection H as <-. exists (advanced_settings c settings).
    destruct (advanced_settings_effect settings c)
      as ((S1 & S2 & S3 & _ & S5 & _) & _).
    split; [apply reachable_settings, Hrc|].
    split; [rewrite S5; reflexivity|].
    split; [rewrite S1; reflexivity|].
    split; [rewrite S2; reflexivity|].
    split; [rewrite S3; reflexivity|]. auto. }
  destruct (pressed CENTER buttons).
  { intros H. injection H as <-. exists c.
    split; [exact Hrc|]. repeat (split; [reflexivity|]). auto. }
  destruct (pressed UP buttons).
  { intros H. injection H as <-. exists c.
    split; [exact Hrc|]. repeat (split; [reflexivity|]). auto. }
  exact IH.
Qed.

(** X17.  [main] never traces without calibrating: in each of the three
    modes that run [follow_line] the tracer was calibrated just before, so
    the calibration inside [follow_line] is not run and the result does not
    depend on what the sensor would have answered there; the thresholds
    after the run are the black sample plus 5 and the white sample minus 5,
    the target is their midpoint, and the run does not end with an
    exception. *)
Theorem main_traces_calibrated (menu : list (list Button))
  (white_value black_value : Q) (settings : list (list Button)) (fw fb : Q)
  (inputs : list TickInput) (result : option Exit * Loop) :
  main menu white_value black_value settings fw fb inputs
  = Some (Traced result) ->
  (forall fw' fb',
     main menu white_value black_value settings fw' fb' inputs
     = Some (Traced result))
  /\ black_threshold (tracer (snd result)) = black_value + 5
  /\ white_threshold (tracer (snd result)) = white_value - 5
  /\ target_value (tracer (snd result))
     = (black_value + 5 + (white_value - 5)) / 2
  /\ is_calibrated (tracer (snd result)) = true
  /\ forall e, fst result <> Some (Raised e).
Proof.
  intros Hmain.
  destruct (main_tracer _ _ _ _ _ _ _ _ Hmain)
    as (t & Hr & Hc & T1 & T2 & T3 & -> & Hany).
  destruct (follow_line_exit t fw fb inputs) as [Hfst Hsnd].
  pose proof (follow_loop_same_config inputs (start t fw fb)) as Hloop.
  pose proof (reachable_no_exception t fw fb inputs) as Hno.
  unfold start in *. rewrite Hc in *. cbn [negb tracer] in *.
  rewrite Hsnd.
  destruct Hloop as (L1 & L2 & L3 & _ & L5 & _).
  split.
  { intros fw' fb'. rewrite Hany.
    now rewrite (follow_line_calibrated t fw' fb' fw fb inputs Hc). }
  split; [congruence|]. split; [congruence|]. split; [congruence|].
  split; [congruence|].
  intros e. rewrite Hfst. exact (Hno e Hr).
Qed.

Lemma main_traces_calibrated_witness :
  black_threshold
    (tracer (snd (follow_line (calibrate init 90 10) 0 0 [reading 60])))
  = 10 + 5.
Proof.
  assert (Hmain : main [[]; [CENTER]] 90 10 [] 0 0 [reading 60]
                  = Some (Traced (follow_line (calibrate init 90 10) 0 0
                                    [reading 60]))) by reflexivity.
  exact (proj1 (proj2 (main_traces_calibrated [[]; [CENTER]] 90 10 [] 0 0
                         [reading 60] _ Hmain))).
Defined.

(** * Further properties of Level 4 *)

(** X18.  The regulator of Level 4, for any gains and any state: the turn
    rate it returns has a magnitude of at most 250, the error it returns is
    the sensor value minus the target, and that error is the last error it
    stores for the next call. *)
Theorem Level4_regulator_output (g : Level4.Globals)
  (sensor_value target_value kp ki kd : Q) :
  let r :=
    Level4.calculate_pid_control g sensor_value target_value kp ki kd in
  Qabs (fst (fst r)) <= 250
  /\ snd (fst r) = sensor_value - target_value
  /\ Level4.last_error (snd r) = snd (fst r)
  /\ Level4.lost_line_count (snd r) = Level4.lost_line_count g
  /\ Level4.log (snd r) = Level4.log g.
Proof.
  cbv zeta. unfold Level4.calculate_pid_control.
  cbn [fst snd Level4.last_error Level4.lost_line_count Level4.log].
  split; [|auto].
  apply (clamp_abs Level4.max_turn). unfold Level4.max_turn. lra.
Qed.

Lemma Level4_regulator_bound (g : Level4.Globals)
  (sensor_value target_value kp ki kd : Q) :
  let r :=
    Level4.calculate_pid_control g sensor_value target_value kp ki kd in
  Qabs (fst (fst r)) <= Level4.max_turn
  /\ Level4.lost_line_count (snd r) = Level4.lost_line_count g
  /\ Level4.log (snd r) = Level4.log g.
Proof.
  cbv zeta. unfold Level4.calculate_pid_control.
  cbn [fst snd Level4.lost_line_count Level4.log].
  split; [|auto].
  apply (clamp_abs Level4.max_turn). unfold Level4.max_turn. lra.
Qed.

Lemma Level4_adjust_speed_range (base error : Q) :
  50 <= Level4.adjust_speed base error
  /\ (50 <= base -> Level4.adjust_speed base error <= base).
Proof.
  unfold Level4.adjust_speed. pose proof (Qabs_nonneg error) as Ha.
  revert Ha. generalize (Qabs error) as a. intros a Ha.
  split; [|intros Hb]; by_cases; lra.
Qed.

(** X19.  The speed law of Level 4: [adjust_speed] never returns less than
    50; for a base speed of at least 50 it never returns more than the base
    speed; and a larger error in magnitude never gives a larger speed. *)
Theorem Level4_adjust_speed_law (base error error' : Q) :
  50 <= Level4.adjust_speed base error
  /\ (50 <= base -> Level4.adjust_speed base error <= base)
  /\ (Qabs error <= Qabs error' ->
      Level4.adjust_speed base error' <= Level4.adjust_speed base error).
Proof.
  destruct (Level4_adjust_speed_range base error) as [H1 H2].
  split; [exact H1|]. split; [exact H2|].
  unfold Level4.adjust_speed.
  generalize (Qabs error) as a. generalize (Qabs error') as a'.
  intros a' a Hle. by_cases; lra.
Qed.

Lemma Level4_adjust_speed_law_witness :
  Level4.adjust_speed 150 30 <= 150
  /\ Level4.adjust_speed 150 40 <= Level4.adjust_speed 150 (-30).
Proof.
  destruct (Level4_adjust_speed_law 150 30 40) as (_ & H2 & _).
  destruct (Level4_adjust_speed_law 150 (-30) 40) as (_ & _ & H3).
  split.
  - apply H2. vm_compute. discriminate.
  - apply H3. vm_compute. discriminate.
Defined.

(** X20.  The two calibrations agree: from the same two samples,
    [calibrate] of Level 4 returns the thresholds that
    [LineTracer.calibrate] stores, and its target, the midpoint of the
    samples, equals the target stored there, the midpoint of the
    thresholds. *)
Theorem calibrations_agree (self : LineTracer) (white_value black_value : Q) :
  let c := Level4.calibrate white_value black_value in
  let t := calibrate self white_value black_value in
  Level4.BLACK_THRESHOLD c = black_threshold t
  /\ Level4.WHITE_THRESHOLD c = white_threshold t
  /\ Level4.TARGET_VALUE c == target_value t
  /\ Level4.TARGET_VALUE c == (white_value + black_value) / 2.
Proof.
  cbv zeta. unfold Level4.calibrate. tracer_simpl.
  cbn [Level4.BLACK_THRESHOLD Level4.WHITE_THRESHOLD Level4.TARGET_VALUE].
  split; [reflexivity|]. split; [reflexivity|].
  split; [halve; lra | reflexivity].
Qed.

Lemma Level4_sweep_quiet (target : Q) (angles : list Z)
  (readings : nat -> Q) (log : list Event) :
  exists more,
    snd (Level4.sweep target angles readings log) = log ++ more
    /\ Forall quiet more.
Proof.
  revert readings log.
  induction angles as [|angle rest IH]; intros readings log;
    cbn [Level4.sweep].
  - exists []. rewrite app_nil_r. auto.
  - destruct (readings 0%nat <? target).
    + exists [EvTurn angle; EvReflection (readings 0%nat)].
      rewrite <- app_assoc. split; [reflexivity | repeat constructor].
    + destruct (IH (fun k => readings (S k))
                  ((log ++ [EvTurn angle]) ++ [EvReflection (readings 0%nat)]))
        as (more & Hlog & Hq).
      exists (EvTurn angle :: EvReflection (readings 0%nat) :: more).
      split; [rewrite Hlog, <- !app_assoc; reflexivity|].
      repeat constructor. exact Hq.
Qed.

Lemma quiet_within_Level4 (more : list Event) :
  Forall quiet more -> Forall drive_within_Level4 more.
Proof.
  induction 1 as [|e l [Hd _] _ IH]; constructor; [|exact IH].
  destruct e; try exact I. discriminate Hd.
Qed.

Lemma running_Level4_quiet (integral last_error : Q) (lost : nat)
  (log more : list Event) :
  Qabs integral <= Level4.integral_limit ->
  Forall drive_within_Level4 log ->
  count_events is_stop log = 0%nat ->
  Forall quiet more ->
  running_Level4 (Level4.mkGlobals integral last_error lost (log ++ more)).
Proof.
  intros Hi Hd Hs Hq. unfold running_Level4.
  cbn [Level4.integral Level4.log].
  split; [exact Hi|]. split.
  - apply Forall_app. split; [exact Hd | apply quiet_within_Level4, Hq].
  - rewrite count_events_app, Hs. apply (count_events_quiet more Hq).
Qed.

Lemma zero_within_limit : Qabs 0 <= Level4.integral_limit.
Proof. apply Qabs_Qle_condition. unfold Level4.integral_limit. lra. Qed.

Lemma Level4_check_lost_line_running (c : Level4.Calibration)
  (g : Level4.Globals) (v : Q) (readings : nat -> Q) :
  running_Level4 g -> (Level4.lost_line_count g <= 5)%nat ->
  let r := Level4.check_lost_line c g v readings in
  running_Level4 (snd r)
  /\ (fst r = true -> (Level4.lost_line_count (snd r) <= 5)%nat).
Proof.
  intros (Hi & Hd & Hs) Hle. unfold Level4.check_lost_line.
  assert (Hnil : forall i l n,
            Qabs i <= Level4.integral_limit ->
            running_Level4 (Level4.mkGlobals i l n (Level4.log g))).
  { intros i l n Hi'. pose proof (running_Level4_quiet i l n (Level4.log g) []
                                    Hi' Hd Hs (Forall_nil _)) as H.
    rewrite app_nil_r in H. exact H. }
  destruct (Level4.WHITE_THRESHOLD c + 5 <? v).
  - destruct (5 <? S (Level4.lost_line_count g))%nat eqn:E.
    + unfold Level4.search_line.
      destruct (Level4_sweep_quiet (Level4.TARGET_VALUE c)
                  Level4.search_angles readings (Level4.log g))
        as (more & Hlog & Hq).
      destruct (Level4.sweep (Level4.TARGET_VALUE c) Level4.search_angles
                  readings (Level4.log g)) as [found log'].
      cbn [snd] in Hlog. subst log'.
      destruct found; cbn [negb fst snd Level4.lost_line_count].
      * split; [|lia].
        apply running_Level4_quiet; auto using zero_within_limit.
      * split; [|discriminate]. apply running_Level4_quiet; auto.
    + apply Nat.ltb_ge in E. cbn [fst snd Level4.lost_line_count].
      split; [apply Hnil, Hi | lia].
  - cbn [fst snd Level4.lost_line_count]. split; [apply Hnil, Hi | lia].
Qed.

Lemma Level4_steer_running (c : Level4.Calibration) (g : Level4.Globals)
  (v : Q) :
  running_Level4 g ->
  running_Level4 (Level4.steer c g v)
  /\ Level4.lost_line_count (Level4.steer c g v) = Level4.lost_line_count g.
Proof.
  intros (Hi & Hd & Hs). unfold Level4.steer.
  assert (Hadd : forall i l n speed turn_rate,
            Qabs i <= Level4.integral_limit ->
            50 <= speed -> speed <= Level4.BASE_SPEED ->
            Qabs turn_rate <= Level4.max_turn ->
            running_Level4
              (Level4.mkGlobals i l n
                 (Level4.log g ++ [EvDrive speed turn_rate]))).
  { intros i l n speed turn_rate Hi' H1 H2 H3. unfold running_Level4.
    cbn [Level4.integral Level4.log]. split; [exact Hi'|]. split.
    - apply Forall_app. split; [exact Hd|].
      constructor; [|constructor]. unfold drive_within_Level4. auto.
    - rewrite count_events_app, Hs. reflexivity. }
  destruct (Level4.detect_sharp_curve v (Level4.BLACK_THRESHOLD c)
              (Level4.WHITE_THRESHOLD c)) as [[|]|].
  - split; [|reflexivity]. apply Hadd.
    + apply zero_within_limit.
    + unfold Level4.BASE_SPEED. lra.
    + unfold Level4.BASE_SPEED. lra.
    + apply Qabs_Qle_condition. unfold Level4.max_turn. lra.
  - split; [|reflexivity]. apply Hadd.
    + apply zero_within_limit.
    + unfold Level4.BASE_SPEED. lra.
    + unfold Level4.BASE_SPEED. lra.
    + apply Qabs_Qle_condition. unfold Level4.max_turn. lra.
  - pose proof (Level4_integral_abs g v (Level4.TARGET_VALUE c) Level4.KP
                  Level4.KI Level4.KD) as Hint.
    destruct (Level4_regulator_bound g v (Level4.TARGET_VALUE c) Level4.KP
                Level4.KI Level4.KD) as (Hturn & Hcount & Hlog).
    destruct (Level4.calculate_pid_control g v (Level4.TARGET_VALUE c)
                Level4.KP Level4.KI Level4.KD) as [[turn_rate error] g'].
    cbn [fst snd] in *. rewrite Hlog.
    destruct (Level4_adjust_speed_range Level4.BASE_SPEED error) as [H1 H2].
    split; [|exact Hcount]. apply Hadd; auto.
    apply H2. unfold Level4.BASE_SPEED. lra.
Qed.

Lemma Level4_tick_running (c : Level4.Calibration) (g : Level4.Globals)
  (button : bool) (v : Q) (readings : nat -> Q) :
  running_Level4 g -> (Level4.lost_line_count g <= 5)%nat ->
  let r := Level4.tick c g button v readings in
  running_Level4 (snd r)
  /\ (fst r = true -> (Level4.lost_line_count (snd r) <= 5)%nat).
Proof.
  intros Hrun Hle. unfold Level4.tick. destruct button.
  - cbn [fst snd]. split; [exact Hrun | discriminate].
  - set (g0 := Level4.mkGlobals (Level4.integral g) (Level4.last_error g)
                 (Level4.lost_line_count g)
                 (Level4.log g ++ [EvReflection v])).
    assert (Hrun0 : running_Level4 g0).
    { destruct Hrun as (Hi & Hd & Hs). apply running_Level4_quiet; auto.
      repeat constructor. }
    destruct (Level4_check_lost_line_running c g0 v readings Hrun0 Hle)
      as [H1 H2].
    destruct (Level4.check_lost_line c g0 v readings) as [go g1].
    cbn [fst snd] in *. destruct go; cbn [negb fst snd].
    + destruct (Level4_steer_running c g1 v H1) as [H3 H4].
      split; [exact H3|]. intros _. rewrite H4. auto.
    + split; [exact H1 | discriminate].
Qed.

Lemma Level4_main_loop_running (c : Level4.Calibration)
  (inputs : list TickInput) (g : Level4.Globals) :
  running_Level4 g -> (Level4.lost_line_count g <= 5)%nat ->
  let r := Level4.main_loop c g inputs in
  running_Level4 (snd r)
  /\ (fst r = true -> (Level4.lost_line_count (snd r) <= 5)%nat).
Proof.
  revert g. induction inputs as [|inp rest IH]; intros g Hrun Hle.
  - cbn. auto.
  - cbn [Level4.main_loop].
    destruct (Level4_tick_running c g (button_center inp) (sensor_reading inp)
                (search_readings inp) Hrun Hle) as [H1 H2].
    destruct (Level4.tick c g (button_center inp) (sensor_reading inp)
                (search_readings inp)) as [[|] g1]; cbn [fst snd] in *.
    + apply IH; auto.
    + split; [exact H1 | discriminate].
Qed.

(** X21.  What the script of Level 4 keeps true in every run, from its
    initial globals and for any calibration samples and device answers: the
    integral stays within the limit 100, also across the resets to 0; every
    drive command has a speed between 50 and 150 and a turn rate of
    magnitude at most 250; the counter of lost ticks is at most 5 while the
    loop runs; the stop is commanded once, as the last command, when the
    loop is left, and not before. *)
Theorem Level4_program_invariants (white_value black_value : Q)
  (inputs : list TickInput) :
  let r := Level4.program white_value black_value inputs in
  Qabs (Level4.integral (snd r)) <= 100
  /\ Forall drive_within_Level4 (Level4.log (snd r))
  /\ (fst r = true ->
      (Level4.lost_line_count (snd r) <= 5)%nat
      /\ count_events is_stop (Level4.log (snd r)) = 0%nat)
  /\ (fst r = false ->
      count_events is_stop (Level4.log (snd r)) = 1%nat
      /\ exists earlier, Level4.log (snd r) = earlier ++ [EvStop]).
Proof.
  cbv zeta. unfold Level4.program.
  assert (Hinit : running_Level4 (Level4.mkGlobals 0 0 0 [])).
  { unfold running_Level4. cbn [Level4.integral Level4.log].
    split; [apply zero_within_limit|]. split; [constructor | reflexivity]. }
  destruct (Level4_main_loop_running
              (Level4.calibrate white_value black_value) inputs
              (Level4.mkGlobals 0 0 0 []) Hinit) as [Hrun Hle];
    [cbn; lia|].
  destruct (Level4.main_loop (Level4.calibrate white_value black_value)
              (Level4.mkGlobals 0 0 0 []) inputs) as [[|] g];
    cbn [fst snd Level4.integral Level4.log Level4.lost_line_count] in *;
    destruct Hrun as (Hi & Hd & Hs).
  - split; [exact Hi|]. split; [exact Hd|].
    split; [auto | discriminate].
  - split; [exact Hi|]. split.
    { apply Forall_app. split; [exact Hd|]. repeat constructor. }
    split; [discriminate|]. intros _. split; [|eauto].
    rewrite count_events_app, Hs. reflexivity.
Qed.

(** X22.  A search of Level 4 that never finds the line: in a tick with a
    reading above [WHITE_THRESHOLD + 5], the counter at 5 or more and none
    of the 5 samples of the search below the target, the main loop is left
    after exactly the 5 pivot turns of the sweep, each followed by one
    sample; the tick sends no drive command and no stop and leaves the
    integral and the last error as they are, whatever inputs follow. *)
Theorem Level4_failed_search_tick (c : Level4.Calibration)
  (g : Level4.Globals) (inp : TickInput) (rest : list TickInput) :
  button_center inp = false ->
  Level4.WHITE_THRESHOLD c + 5 < sensor_reading inp ->
  (5 <= Level4.lost_line_count g)%nat ->
  (forall k, (k < 5)%nat ->
     Level4.TARGET_VALUE c <= search_readings inp k) ->
  let made := sweep_log Level4.search_angles (search_readings inp) in
  Level4.main_loop c g (inp :: rest)
  = (false,
     Level4.mkGlobals (Level4.integral g) (Level4.last_error g)
       (S (Level4.lost_line_count g))
       (Level4.log g ++ EvReflection (sensor_reading inp) :: made))
  /\ count_events is_turn made = 5%nat
  /\ count_events is_reflection made = 5%nat
  /\ count_events is_drive made = 0%nat
  /\ count_events is_stop made = 0%nat.
Proof.
  intros Hb Hv H5 Hnever made. split; [|subst made; cbn; auto].
  cbn [Level4.main_loop]. unfold Level4.tick. rewrite Hb.
  unfold Level4.check_lost_line.
  cbn [Level4.integral Level4.last_error Level4.lost_line_count Level4.log].
  apply Qltb_lt in Hv. rewrite Hv.
  assert (E5 : (5 <? S (Level4.lost_line_count g))%nat = true)
    by (apply Nat.ltb_lt; lia).
  rewrite E5, (Level4_failed_search _ _ _ Hnever). cbn [negb].
  subst made. rewrite <- app_assoc. reflexivity.
Qed.

Lemma Level4_failed_search_tick_witness :
  fst (Level4.main_loop (Level4.calibrate 90 10)
         (Level4.mkGlobals 0 0 5 []) [reading 95; reading 50])
  = false.
Proof.
  assert (Hb : button_center (reading 95) = false) by reflexivity.
  assert (Hv : Level4.WHITE_THRESHOLD (Level4.calibrate 90 10) + 5
               < sensor_reading (reading 95)) by (vm_compute; reflexivity).
  assert (H5 : (5 <= Level4.lost_line_count (Level4.mkGlobals 0 0 5 []))%nat)
    by (cbn; lia).
  assert (Hnever : forall k, (k < 5)%nat ->
            Level4.TARGET_VALUE (Level4.calibrate 90 10)
            <= search_readings (reading 95) k)
    by (intros k _; vm_compute; discriminate).
  rewrite (proj1 (Level4_failed_search_tick (Level4.calibrate 90 10)
                    (Level4.mkGlobals 0 0 5 []) (reading 95) [reading 50]
                    Hb Hv H5 Hnever)).
  reflexivity.
Defined.

(** * A consequence of the gray zone *)

(** X23.  With a narrow calibration every PID tick records the line as
    centred: for a tracer whose target is the midpoint of its thresholds
    and whose gray zone is 0.3 times their distance, as [calibrate] sets
    them, and whose thresholds are less than 50 apart, a tick that runs the
    PID branch and goes on ends with [line_position] 0: a reading that is
    not a sharp curve is at least 10 inside both thresholds, which is
    inside the gray zone. *)
Theorem narrow_calibration_centred (st st' : Loop) (inp : TickInput)
  (gray : Q) :
  target_value (tracer st)
  == (black_threshold (tracer st) + white_threshold (tracer st)) / 2 ->
  gray_zone (tracer st) = Some gray ->
  gray == (white_threshold (tracer st) - black_threshold (tracer st)) * 0.3 ->
  white_threshold (tracer st) - black_threshold (tracer st) < 50 ->
  detect_sharp_curve (tracer st) (sensor_reading inp) = None ->
  tick st inp = (None, st') ->
  line_position (tracer st') = 0%Z.
Proof.
  intros Htarget Hgray Hg Hnarrow Hc Ht.
  pose proof (tick_running_button _ _ _ Ht) as Hb.
  set (v := sensor_reading inp) in *.
  assert (Hin : black_threshold (tracer st) + 10 <= v
                /\ v <= white_threshold (tracer st) - 10).
  { revert Hc. unfold detect_sharp_curve.
    destruct (v <? black_threshold (tracer st) + 10) eqn:E1; [discriminate|].
    destruct (white_threshold (tracer st) - 10 <? v) eqn:E2; [discriminate|].
    apply Qltb_ge in E1, E2. auto. }
  destruct Hin as [Hlo Hhi].
  rewrite (tick_unfold st inp Hb) in Ht. cbv zeta in Ht. fold v in Ht.
  unfold check_lost_line in Ht. cbn [tracer lost_line_count log] in Ht.
  assert (Hv : (white_threshold (tracer st) + 5 <? v) = false)
    by (apply Qltb_ge; lra).
  rewrite Hv in Ht. cbn [negb fst snd] in Ht. unfold steer in Ht.
  cbn [tracer lost_line_count log] in Ht. rewrite Hc in Ht.
  destruct (calculate_pid_same_config (tracer st) v)
    as (_ & _ & Ktarget & Kgray & _).
  destruct (calculate_pid (tracer st) v) as [turn_rate self'].
  cbn [snd] in Ktarget, Kgray.
  destruct (Qeq_bool (max_turn_rate self') 0); [discriminate|].
  rewrite Kgray, Hgray, Ktarget in Ht.
  assert (Hcentre : (Qabs (v - target_value (tracer st)) <? gray) = true).
  { apply Qltb_lt, Qabs_Qlt_condition. halve. lra. }
  rewrite Hcentre in Ht. injection Ht as <-. cbn [tracer].
  apply set_line_position_read.
Qed.

Lemma narrow_calibration_centred_witness :
  let st := mkLoop (calibrate init 55 15) 0 [] in
  line_position (tracer (snd (tick st (reading 39)))) = 0%Z.
Proof.
  cbv zeta.
  assert (Htarget :
            target_value (calibrate init 55 15)
            == (black_threshold (calibrate init 55 15)
                + white_threshold (calibrate init 55 15)) / 2)
    by reflexivity.
  assert (Hg : (55 - 5 - (15 + 5)) * 0.3
               == (white_threshold (calibrate init 55 15)
                   - black_threshold (calibrate init 55 15)) * 0.3)
    by reflexivity.
  assert (Hnarrow : white_threshold (calibrate init 55 15)
                    - black_threshold (calibrate init 55 15) < 50)
    by (vm_compute; reflexivity).
  assert (Hc : detect_sharp_curve (calibrate init 55 15)
                 (sensor_reading (reading 39)) = None)
    by (vm_compute; reflexivity).
  exact (narrow_calibration_centred (mkLoop (calibrate init 55 15) 0 [])
           (snd (tick (mkLoop (calibrate init 55 15) 0 []) (reading 39)))
           (reading 39) _ Htarget eq_refl Hg Hnarrow Hc eq_refl).
Defined.
